(** * IAPS: a shallow embedding of [iaps.py]

    The module reads the tab-separated scoring table of the International
    Affective Picture System with pandas, cleans two of its columns, builds
    image paths and samples identifiers by valence.

    The development follows the source function by function:
    [read_scoring], [full_filename], [sample_negative_images],
    [sample_positive_images] and [sample_neutral_images].  The pieces of
    Python, [os.path], pandas and NumPy that the module calls are modelled
    next to them, each with the behaviour it relies on. *)

From Stdlib Require Import ZArith List Bool Ascii String Lia Permutation.
From Stdlib Require Import SpecFloat DecimalString.
Import ListNotations.

Local Open Scope string_scope.
Local Open Scope Z_scope.

(** ** Python exceptions and the result of a call *)

Inductive exn : Type :=
| IOError         (* the scoring file cannot be opened *)
| ParserError     (* pandas: a line with too many fields *)
| TypeError
| ValueError
| OverflowError
| IndexError.

Inductive result (A : Type) : Type :=
| Ok (a : A)
| Raise (e : exn).

Arguments Ok {A} a.
Arguments Raise {A} e.

Definition bind {A B} (r : result A) (k : A -> result B) : result B :=
  match r with
  | Ok a => k a
  | Raise e => Raise e
  end.

Declare Scope py_scope.
Delimit Scope py_scope with py.
Notation "x <- c ;; k" := (bind c (fun x => k))
  (at level 61, c at next level, right associativity) : py_scope.
Local Open Scope py_scope.

Definition is_ok {A} (r : result A) : bool :=
  match r with Ok _ => true | Raise _ => false end.

(** A list comprehension whose body may raise: the first failing element,
    in iteration order, decides the exception. *)
Fixpoint mapM {A B} (f : A -> result B) (l : list A) : result (list B) :=
  match l with
  | [] => Ok []
  | x :: xs => y <- f x ;; ys <- mapM f xs ;; Ok (y :: ys)
  end.

(** ** Strings

    A Python [str] is a [string] with one [ascii] for each character, so
    the last element of a [string] is the last character of the text. *)

Definition tab : ascii := "009".
Definition space : ascii := " ".
Definition slash : ascii := "/".

Definition is_digit (c : ascii) : bool :=
  (48 <=? nat_of_ascii c)%nat && (nat_of_ascii c <=? 57)%nat.

(** C's [isspace] on ASCII, as pandas' parser tests it: space, \t, \n,
    \v, \f, \r. *)
Definition is_space (c : ascii) : bool :=
  let n := nat_of_ascii c in
  (n =? 32)%nat || ((9 <=? n)%nat && (n <=? 13)%nat).

Definition startswith (s : string) (c : ascii) : bool :=
  match s with
  | String a _ => Ascii.eqb a c
  | EmptyString => false
  end.

Fixpoint last_char (s : string) : option ascii :=
  match s with
  | EmptyString => None
  | String a EmptyString => Some a
  | String _ r => last_char r
  end.

Definition endswith_char (s : string) (c : ascii) : bool :=
  match last_char s with
  | Some a => Ascii.eqb a c
  | None => false
  end.

(** [s.endswith(suf)] *)
Definition endswith (s suf : string) : bool :=
  let n := String.length s in
  let k := String.length suf in
  (k <=? n)%nat && String.eqb (substring (n - k) k s) suf.

(** [s[:-1]]: the string without its last character; the empty string
    stays empty. *)
Fixpoint drop_last (s : string) : string :=
  match s with
  | EmptyString => EmptyString
  | String _ EmptyString => EmptyString
  | String a r => String a (drop_last r)
  end.

(** [s.split(sep)] for a one-character separator: never empty. *)
Fixpoint split_on (sep : ascii) (s : string) : list string :=
  match s with
  | EmptyString => [EmptyString]
  | String a r =>
      if Ascii.eqb a sep then EmptyString :: split_on sep r
      else match split_on sep r with
           | f :: fs => String a f :: fs
           | [] => [String a EmptyString]
           end
  end.

Fixpoint lstrip (s : string) : string :=
  match s with
  | String a r => if is_space a then lstrip r else s
  | EmptyString => EmptyString
  end.

Fixpoint rstrip (s : string) : string :=
  match s with
  | EmptyString => EmptyString
  | String a r =>
      match rstrip r with
      | EmptyString => if is_space a then EmptyString else String a EmptyString
      | r' => String a r'
      end
  end.

Definition strip (s : string) : string := rstrip (lstrip s).

Fixpoint all_chars (p : ascii -> bool) (s : string) : bool :=
  match s with
  | EmptyString => true
  | String a r => p a && all_chars p r
  end.

Definition in_strings (s : string) (l : list string) : bool :=
  existsb (String.eqb s) l.

(** ** Python integers as text *)

(** [str(z)] for an integer. *)
Definition str_int (z : Z) : string := NilZero.string_of_int (Z.to_int z).

Definition digit_value (c : ascii) : Z := Z.of_nat (nat_of_ascii c) - 48.

Fixpoint digits_value (acc : Z) (s : string) : Z :=
  match s with
  | EmptyString => acc
  | String a r => digits_value (10 * acc + digit_value a) r
  end.

Definition unsigned_literal (s : string) : option Z :=
  match s with
  | EmptyString => None
  | _ => if all_chars is_digit s then Some (digits_value 0 s) else None
  end.

(** A decimal integer literal as pandas' parser reads one: optional
    surrounding blanks, an optional sign and at least one digit. *)
Definition int_literal (s : string) : option Z :=
  match strip s with
  | String "-" r => option_map Z.opp (unsigned_literal r)
  | String "+" r => unsigned_literal r
  | r => unsigned_literal r
  end.

(** Python's [str.isspace] on the characters below 256: \t, \n, \v, \f,
    \r, the four separators 28 to 31, the space, NEL (133) and the
    no-break space (160). *)
Definition py_isspace (c : ascii) : bool :=
  let n := nat_of_ascii c in
  ((9 <=? n)%nat && (n <=? 13)%nat)
  || ((28 <=? n)%nat && (n <=? 32)%nat)
  || (n =? 133)%nat || (n =? 160)%nat.

Fixpoint py_lstrip (s : string) : string :=
  match s with
  | String a r => if py_isspace a then py_lstrip r else s
  | EmptyString => EmptyString
  end.

Fixpoint py_rstrip (s : string) : string :=
  match s with
  | EmptyString => EmptyString
  | String a r =>
      match py_rstrip r with
      | EmptyString =>
          if py_isspace a then EmptyString else String a EmptyString
      | r' => String a r'
      end
  end.

(** [s.strip()] *)
Definition py_strip (s : string) : string := py_rstrip (py_lstrip s).

(** Digits in groups: a single underscore may stand between two digits
    (Python 3.6 and later).  [after_digit] tells whether the character
    before is a digit. *)
Fixpoint grouped_digits (acc : Z) (after_digit : bool) (s : string)
  : option Z :=
  match s with
  | EmptyString => if after_digit then Some acc else None
  | String a r =>
      if is_digit a then grouped_digits (10 * acc + digit_value a) true r
      else if Ascii.eqb a "_" && after_digit then grouped_digits acc false r
      else None
  end.

(** The integer that [int(s)] reads in text, in base ten: blanks around
    it, an optional sign, digits in groups. *)
Definition python_int (s : string) : option Z :=
  match py_strip s with
  | String "-" r => option_map Z.opp (grouped_digits 0 false r)
  | String "+" r => grouped_digits 0 false r
  | r => grouped_digits 0 false r
  end.


(** ** Binary64 numbers

    Column values and thresholds are IEEE 754 doubles, taken from the
    standard library's [spec_float] with [prec = 53] and [emax = 1024]. *)

Definition float : Type := spec_float.
Definition nan : float := S754_nan.

(** Quotient [n / d] rounded to the nearest integer, ties to even
    ([0 < d], [0 <= n]). *)
Definition round_half_even (n d : Z) : Z :=
  let q := n / d in
  match 2 * (n mod d) ?= d with
  | Lt => q
  | Gt => q + 1
  | Eq => if Z.even q then q else q + 1
  end.

(** [p.bit_length()] *)
Definition bit_length (p : positive) : Z := Z.log2 (Zpos p) + 1.

(** The double nearest to [p], ties to even, in canonical form: a
    mantissa of 53 bits.  Beyond the largest double the result is an
    infinity. *)
Definition float_of_pos (neg : bool) (p : positive) : float :=
  let d := bit_length p in
  if d <=? 53 then S754_finite neg (Z.to_pos (Zpos p * 2 ^ (53 - d))) (d - 53)
  else
    let q := round_half_even (Zpos p) (2 ^ (d - 53)) in
    let me := if q =? 2 ^ 53 then (2 ^ 52, d - 52) else (q, d - 53) in
    if snd me <=? 1024 - 53
    then S754_finite neg (Z.to_pos (fst me)) (snd me)
    else S754_infinity neg.

(** [float(z)] *)
Definition float_of_Z (z : Z) : float :=
  match z with
  | Z0 => S754_zero false
  | Zpos p => float_of_pos false p
  | Zneg p => float_of_pos true p
  end.

(** [x <= y] on doubles in canonical form (a mantissa of 53 bits for a
    normal number); false as soon as one side is NaN. *)
Definition float_le (x y : float) : bool := SFleb x y.

Definition is_finite (f : float) : bool :=
  match f with
  | S754_zero _ | S754_finite _ _ _ => true
  | _ => false
  end.

(** [int(f)]: truncation toward zero; NaN and the infinities raise. *)
Definition trunc_float (f : float) : result Z :=
  match f with
  | S754_nan => Raise ValueError
  | S754_infinity _ => Raise OverflowError
  | S754_zero _ => Ok 0
  | S754_finite s m e =>
      let a := if 0 <=? e then Zpos m * 2 ^ e else Zpos m / 2 ^ (- e) in
      Ok (if s then - a else a)
  end.

(** [z == f] between a Python integer and a double: Python compares the
    two exactly, without rounding the integer. *)
Definition int_eq_float (z : Z) (f : float) : bool :=
  match f with
  | S754_zero _ => z =? 0
  | S754_finite s m e =>
      let v := if s then Zneg m else Zpos m in
      if 0 <=? e then z =? v * 2 ^ e else z * 2 ^ (- e) =? v
  | _ => false
  end.

(** The number of tenths in [m * 2^e], correctly rounded. *)
Definition tenths (m : positive) (e : Z) : Z :=
  if 0 <=? e then 10 * Zpos m * 2 ^ e
  else round_half_even (10 * Zpos m) (2 ^ (- e)).

Definition digit_char (d : Z) : ascii := ascii_of_nat (48 + Z.to_nat d).

Definition format_tenths (neg : bool) (q : Z) : string :=
  (if neg then "-" else "") ++ str_int (q / 10) ++ "."
    ++ String (digit_char (q mod 10)) EmptyString.

(** ["%.1f" % f] *)
Definition format_1f (f : float) : string :=
  match f with
  | S754_nan => "nan"
  | S754_infinity s => if s then "-inf" else "inf"
  | S754_zero s => format_tenths s 0
  | S754_finite s m e => format_tenths s (tenths m e)
  end.

(** ** Python values met in a column *)

Inductive pyval : Type :=
| PyStr (s : string)   (* a text, character by character *)
| PyInt (z : Z)        (* an element of an int64 column *)
| PyFloat (f : float). (* an element of a float64 column, or a missing
                          value (NaN) in any column *)

(** [int(element)] *)
Definition py_int (v : pyval) : result Z :=
  match v with
  | PyInt z => Ok z
  | PyFloat f => trunc_float f
  | PyStr s => match python_int s with
               | Some z => Ok z
               | None => Raise ValueError
               end
  end.

(** [float(element)].  For text only integer literals are covered: in
    [read_scoring] the call comes after [int(element)] has accepted the
    same text. *)
Definition py_float (v : pyval) : result float :=
  match v with
  | PyFloat f => Ok f
  | PyInt z => Ok (float_of_Z z)
  | PyStr s => match python_int s with
               | Some z => Ok (float_of_Z z)
               | None => Raise ValueError
               end
  end.

(** ["%.1f" % element] *)
Definition percent_1f (v : pyval) : result string :=
  match v with
  | PyFloat f => Ok (format_1f f)
  | PyInt z => Ok (format_1f (float_of_Z z))
  | PyStr _ => Raise TypeError
  end.

(** [item[:-1]]: slicing is defined on text only. *)
Definition slice_drop_last (v : pyval) : result string :=
  match v with
  | PyStr s => Ok (drop_last s)
  | _ => Raise TypeError
  end.

Definition int64_min : Z := - 2 ^ 63.
Definition int64_max : Z := 2 ^ 63 - 1.
Definition in_int64 (z : Z) : bool := (int64_min <=? z) && (z <=? int64_max).

(** One element of [Series.astype(int)] on a column of text. *)
Definition astype_int (s : string) : result Z :=
  match python_int s with
  | None => Raise ValueError
  | Some z => if in_int64 z then Ok z else Raise OverflowError
  end.

(** ** The table

    A pandas DataFrame with the eleven columns that [read_scoring] names,
    stored column by column as pandas does.  [I] and [S] are the element
    types of the two columns the function rewrites: Python values as
    [read_csv] leaves them, text and integers once cleaned. *)

Record Frame (I S : Type) : Type := mkFrame {
  desc : list pyval;
  IAPS : list I;
  valmn : list pyval;
  valsd : list pyval;
  aromn : list pyval;
  arosd : list pyval;
  dom1mn : list pyval;
  dom1sd : list pyval;
  dom2mn : list pyval;
  dom2sd : list pyval;
  set : list S
}.

Arguments mkFrame {I S}.
Arguments desc {I S} _.
Arguments IAPS {I S} _.
Arguments valmn {I S} _.
Arguments valsd {I S} _.
Arguments aromn {I S} _.
Arguments arosd {I S} _.
Arguments dom1mn {I S} _.
Arguments dom1sd {I S} _.
Arguments dom2mn {I S} _.
Arguments dom2sd {I S} _.
Arguments set {I S} _.

Definition RawFrame : Type := Frame pyval pyval.
Definition DataFrame : Type := Frame string Z.

(** [columns = "desc IAPS valmn ... set".split()] *)
Definition columns : list string :=
  ["desc"; "IAPS"; "valmn"; "valsd"; "aromn"; "arosd"; "dom1mn";
   "dom1sd"; "dom2mn"; "dom2sd"; "set"].

Definition nrows {I S} (df : Frame I S) : nat := List.length (IAPS df).

(** ** [pandas.read_csv]

    The call is [read_csv(filename, names=columns, sep='\t', skiprows=7,
    na_values='.')].  A file is the list of its lines, terminators removed.
    The model is the call on plain text, [plain_file] below: printable
    ASCII and tabs, no double quote (pandas' quoting, with fields that run
    over tabs and line ends, is not modelled), no data line wider than the
    names.  What is proved about the lines of a file is proved for plain
    files.  On them:
    - the first seven lines are skipped, then blank lines (empty, or made
      of spaces) are dropped ([skip_blank_lines] is on by default);
    - a line is cut at every tab; a short line is filled up with missing
      values, a line with more fields than names is a parser error (the
      index pandas builds when the first data line is the wider one is
      left out);
    - a field is missing when it is ["."] or one of pandas' default
      markers;
    - a column is int64 when every field is an integer literal in range,
      float64 when every field is missing or a number, and otherwise a
      column of Python objects: the text itself, NaN where missing.
    Pandas reads a column as int64 first.  A field that opens with an
    integer outside the int64 range makes this overflow; pandas then tries
    uint64 and, failing that, leaves the column as text, missing markers
    included when a missing or a negative field stands beside an integer
    above the range.  This path and the bool type (a column of [True] and
    [False]) are left out, and so is the typing in pieces of a table of
    more than 65536 rows.  What is proved about the values of a typed
    column is proved for columns in which no field opens with an integer
    outside the int64 range ([within_int64]), and leaves open what pandas
    makes of [True] and [False].
    How pandas turns the text of a number into a double is a parameter,
    [to_double]. *)

Definition default_na_values : list string :=
  [""; "#N/A"; "#N/A N/A"; "#NA"; "-1.#IND"; "-1.#QNAN"; "-NaN"; "-nan";
   "1.#IND"; "1.#QNAN"; "N/A"; "NA"; "NULL"; "NaN"; "n/a"; "nan"; "null"].

Definition na_values : list string := "." :: default_na_values.

Definition is_na (s : string) : bool := in_strings s na_values.

Definition blank_line (l : string) : bool := all_chars (Ascii.eqb space) l.

Definition data_lines (lines : list string) : list string :=
  filter (fun l => negb (blank_line l)) (skipn 7 lines).

Definition width : nat := List.length columns.

Definition fields_of_line (l : string) : result (list string) :=
  let fs := split_on tab l in
  if (List.length fs <=? width)%nat
  then Ok (fs ++ repeat EmptyString (width - List.length fs))%list
  else Raise ParserError.

Definition tokenize (lines : list string) : result (list (list string)) :=
  mapM fields_of_line (data_lines lines).

(** A tab or a printable ASCII character other than the double quote. *)
Definition plain_char (c : ascii) : bool :=
  let n := nat_of_ascii c in
  ((n =? 9)%nat || ((32 <=? n)%nat && (n <=? 126)%nat))
  && negb (n =? 34)%nat.

Definition plain_line (l : string) : bool := all_chars plain_char l.

(** A data line of a plain file: at most as many fields as names, and not
    a line of spaces unless it is empty. *)
Definition plain_data_line (l : string) : bool :=
  (List.length (split_on tab l) <=? width)%nat
  && (negb (blank_line l) || String.eqb l EmptyString).

(** The files the model of [read_csv] stands for. *)
Definition plain_file (lines : list string) : bool :=
  forallb plain_line lines && forallb plain_data_line (skipn 7 lines).

Fixpoint leading_digits (s : string) : string :=
  match s with
  | String a r =>
      if is_digit a then String a (leading_digits r) else EmptyString
  | EmptyString => EmptyString
  end.

(** The integer pandas' parser has read in a field when it meets the first
    character that is no digit: blanks and a sign are passed over; without
    a digit it is 0. *)
Definition integer_prefix (s : string) : Z :=
  match lstrip s with
  | String "-" r => - digits_value 0 (leading_digits r)
  | String "+" r => digits_value 0 (leading_digits r)
  | r => digits_value 0 (leading_digits r)
  end.

(** A field that does not make the parser overflow int64: neither an
    integer outside the range nor a text that opens with one, such as a
    decimal number with twenty digits before the point.  On an overflow
    pandas tries uint64 and then leaves the column as text. *)
Definition within_int64 (s : string) : bool := in_int64 (integer_prefix s).

(** The fields of column [k], top to bottom. *)
Definition column (k : nat) (rows : list (list string)) : list string :=
  map (fun r => nth k r EmptyString) rows.

Definition int64_literal (s : string) : option Z :=
  match int_literal s with
  | Some z => if in_int64 z then Some z else None
  | None => None
  end.

Definition is_some {A} (o : option A) : bool :=
  match o with Some _ => true | None => false end.

(** The file system, read-only: the lines of each file that exists, as the
    text they decode to. *)
Definition filesystem : Type := string -> option (list string).

Section Pandas.

Variable to_double : string -> option float.

Definition int_field (s : string) : bool :=
  negb (is_na s) && is_some (int64_literal s).

Definition float_field (s : string) : bool :=
  is_na s || is_some (to_double s).

Definition as_int (s : string) : pyval :=
  match int64_literal s with
  | Some z => PyInt z
  | None => PyStr s
  end.

Definition as_float (s : string) : pyval :=
  if is_na s then PyFloat nan
  else match to_double s with
       | Some f => PyFloat f
       | None => PyStr s
       end.

Definition as_object (s : string) : pyval :=
  if is_na s then PyFloat nan else PyStr s.

Definition infer_column (fields : list string) : list pyval :=
  if forallb int_field fields then map as_int fields
  else if forallb float_field fields then map as_float fields
  else map as_object fields.

Definition read_csv (fs : filesystem) (filename : string) : result RawFrame :=
  match fs filename with
  | None => Raise IOError
  | Some lines =>
      rows <- tokenize lines ;;
      let col k := infer_column (column k rows) in
      Ok (mkFrame (col 0%nat) (col 1%nat) (col 2%nat) (col 3%nat) (col 4%nat)
                  (col 5%nat) (col 6%nat) (col 7%nat) (col 8%nat) (col 9%nat)
                  (col 10%nat))
  end.

(** ** [read_scoring] *)

(** The element of the comprehension over [df.IAPS]:
    [str(int(element)) if int(element) == float(element)
     else "%.1f" % element]. *)
Definition clean_identifier (element : pyval) : result string :=
  i <- py_int element ;;
  f <- py_float element ;;
  if int_eq_float i f then Ok (str_int i) else percent_1f element.

Definition read_scoring (fs : filesystem) (filename : string)
  : result DataFrame :=
  df <- read_csv fs filename ;;
  (* df.set = [item[:-1] for item in df.set] *)
  stripped <- mapM slice_drop_last (set df) ;;
  (* df.set = df.set.astype(int) *)
  numbers <- mapM astype_int stripped ;;
  (* df.IAPS = [... for element in df.IAPS] *)
  identifiers <- mapM clean_identifier (IAPS df) ;;
  Ok (mkFrame (desc df) identifiers (valmn df) (valsd df) (aromn df)
              (arosd df) (dom1mn df) (dom1sd df) (dom2mn df) (dom2sd df)
              numbers).

End Pandas.

(** ** [os.path] and the module constants *)

(** One step of [posixpath.join]: an absolute component replaces what was
    joined so far. *)
Definition join2 (path b : string) : string :=
  if startswith b slash then b
  else if String.eqb path EmptyString || endswith_char path slash
       then path ++ b
       else path ++ "/" ++ b.

(** [join(a, *p)] *)
Definition join (a : string) (p : list string) : string :=
  fold_left join2 p a.

Section Paths.

(** The value of [expanduser('~')]. *)
Variable home : string.

Definition IAPS_DIR : string := join home ["data"; "IAPS 2008 1-20"].

Definition IAPS_SCORING_FILENAME : string :=
  join IAPS_DIR ["IAPS Tech Report"; "AllSubjects_1-20.txt"].

(** The names whose image file carries the extension in capitals. *)
Definition upper_case_names : list string :=
  ["6570"; "6570.1"; "6561"; "6560"].

Definition full_filename (name : string) : string :=
  let full_filename := join IAPS_DIR ["IAPS 1-20 Images"; name] in
  if in_strings name upper_case_names
  then full_filename ++ ".JPG"
  else full_filename ++ ".jpg".

End Paths.

(** ** Random numbers

    [Series.sample] draws through a NumPy [RandomState].  Its generator is
    an interface here: a state, the state a seed gives, and [permutation],
    which returns the indices below [k] in some order and the next
    state. *)

Class RandomSource : Type := {
  rng_state : Type;
  RandomState : Z -> rng_state;
  permutation : rng_state -> nat -> list nat * rng_state;
  permutation_perm :
    forall st k, Permutation (fst (permutation st k)) (seq 0 k)
}.

Section Sampling.

Context {rng : RandomSource}.

(** A computation that may raise and that may advance NumPy's global
    generator, the only state shared between two calls. *)
Definition M (A : Type) : Type := rng_state -> result A * rng_state.

Definition lift {A} (r : result A) : M A := fun g => (r, g).

Definition bindM {A B} (m : M A) (k : A -> M B) : M B :=
  fun g =>
    match m g with
    | (Ok a, g') => k a g'
    | (Raise e, g') => (Raise e, g')
    end.

Notation "x <~ c ;; k" := (bindM c (fun x => k))
  (at level 61, c at next level, right associativity) : py_scope.

(** [RandomState(seed)] accepts the seeds of 32 bits. *)
Definition seed_ok (seed : Z) : bool := (0 <=? seed) && (seed <? 2 ^ 32).

(** [rs.choice(a, size=size, replace=False)] on a generator in state
    [st]: the first [size] indices of a permutation.  An empty population
    and a size above the population raise [ValueError] before anything
    is drawn. *)
Definition choice (st : rng_state) (a : nat) (size : Z)
  : result (list nat) * rng_state :=
  if (a =? 0)%nat then (Raise ValueError, st)
  else if Z.of_nat a <? size then (Raise ValueError, st)
  else let (p, st') := permutation st a in
       (Ok (firstn (Z.to_nat size) p), st').

(** [Series.take(locs)] *)
Definition take {A} (population : list A) (locs : list nat)
  : result (list A) :=
  mapM (fun i => match nth_error population i with
                 | Some x => Ok x
                 | None => Raise IndexError
                 end) locs.

(** The drawing part of [Series.sample], once the generator is chosen. *)
Definition sample_with {A} (population : list A) (n : option Z)
    (st : rng_state) : result (list A) * rng_state :=
  (* If no frac or n, default to n=1. *)
  let n := match n with Some k => k | None => 1 end in
  if n <? 0 then (Raise ValueError, st)
  else match choice st (List.length population) n with
       | (Ok locs, st') => (take population locs, st')
       | (Raise e, st') => (Raise e, st')
       end.

(** [population.sample(n=n, random_state=random_state)] for the two
    kinds of [random_state] the docstrings name, an integer seed or
    nothing: a seed makes a generator of its own; without one the global
    generator is used and advanced. *)
Definition sample {A} (population : list A) (n : option Z)
    (random_state : option Z) : M (list A) :=
  fun g =>
    match random_state with
    | Some seed =>
        if seed_ok seed
        then (fst (sample_with population n (RandomState seed)), g)
        else (Raise ValueError, g)
    | None => sample_with population n g
    end.

(** ** The three samplers *)

(** The double that NumPy compares for an element of [df.valmn]: the
    element of a float64 column, the converted element of an int64
    column, nothing for text. *)
Definition as_double (v : pyval) : option float :=
  match v with
  | PyFloat f => Some f
  | PyInt z => Some (float_of_Z z)
  | PyStr _ => None
  end.

(** One element of [df.valmn <= threshold] and of [df.valmn >= threshold];
    ordering text against a number raises (Python 3). *)
Definition le_threshold (threshold : float) (v : pyval) : result bool :=
  match as_double v with
  | Some f => Ok (float_le f threshold)
  | None => Raise TypeError
  end.

Definition ge_threshold (threshold : float) (v : pyval) : result bool :=
  match as_double v with
  | Some f => Ok (float_le threshold f)
  | None => Raise TypeError
  end.

(** [df.ix[mask, 'IAPS']]: the elements of the column where the mask is
    true, in table order. *)
Definition ix {A} (mask : list bool) (col : list A) : list A :=
  map snd (filter fst (combine mask col)).

Variable to_double : string -> option float.
Variable fs : filesystem.
Variable home : string.

Definition negative_rows (threshold : float) : result (list string) :=
  df <- read_scoring to_double fs (IAPS_SCORING_FILENAME home) ;;
  mask <- mapM (le_threshold threshold) (valmn df) ;;
  Ok (ix mask (IAPS df)).

Definition positive_rows (threshold : float) : result (list string) :=
  df <- read_scoring to_double fs (IAPS_SCORING_FILENAME home) ;;
  mask <- mapM (ge_threshold threshold) (valmn df) ;;
  Ok (ix mask (IAPS df)).

Definition neutral_rows (thresholds : float * float)
  : result (list string) :=
  df <- read_scoring to_double fs (IAPS_SCORING_FILENAME home) ;;
  lower <- mapM (ge_threshold (fst thresholds)) (valmn df) ;;
  upper <- mapM (le_threshold (snd thresholds)) (valmn df) ;;
  Ok (ix (map (fun p => andb (fst p) (snd p)) (combine lower upper))
         (IAPS df)).

Definition sample_negative_images (n random_state : option Z)
    (threshold : float) : M (list string) :=
  rows <~ lift (negative_rows threshold) ;;
  filenames <~ sample rows n random_state ;;
  lift (Ok (map (full_filename home) filenames)).

Definition sample_positive_images (n random_state : option Z)
    (threshold : float) : M (list string) :=
  rows <~ lift (positive_rows threshold) ;;
  filenames <~ sample rows n random_state ;;
  lift (Ok (map (full_filename home) filenames)).

Definition sample_neutral_images (n random_state : option Z)
    (thresholds : float * float) : M (list string) :=
  rows <~ lift (neutral_rows thresholds) ;;
  filenames <~ sample rows n random_state ;;
  lift (Ok (map (full_filename home) filenames)).

End Sampling.

(** The default thresholds of the three samplers. *)
Definition default_negative_threshold : float := float_of_Z 3.
Definition default_positive_threshold : float := float_of_Z 7.
Definition default_neutral_thresholds : float * float :=
  (float_of_Z 4, float_of_Z 6).

(** ** A reference instance

    A converter for plain decimal numbers, a small generator and a scoring
    file of four rows, used to run the functions above. *)

Module Fixture.

(** The double nearest to [(-1)^neg * n / 10^k]. *)
Definition nearest_double (neg : bool) (n : Z) (k : nat) : float :=
  match n with
  | Zpos p =>
      SFdiv 53 1024 (S754_finite neg p 0)
                    (S754_finite false (Z.to_pos (10 ^ Z.of_nat k)) 0)
  | _ => S754_zero neg
  end.

Definition unsigned_decimal (neg : bool) (s : string) : option float :=
  match split_on "." s with
  | [i] =>
      if all_chars is_digit i && negb (String.eqb i EmptyString)
      then Some (nearest_double neg (digits_value 0 i) 0)
      else None
  | [i; f] =>
      if all_chars is_digit i && all_chars is_digit f
         && negb (String.eqb (i ++ f) EmptyString)
      then Some (nearest_double neg (digits_value 0 (i ++ f))
                                (String.length f))
      else None
  | _ => None
  end.

(** Text of the form [[+-]digits[.digits]], blanks around it allowed. *)
Definition strtod (s : string) : option float :=
  match strip s with
  | String "-" r => unsigned_decimal true r
  | String "+" r => unsigned_decimal false r
  | r => unsigned_decimal false r
  end.

(** Rotation of [l] by [r] places. *)
Definition rotate {A} (r : nat) (l : list A) : list A :=
  (skipn r l ++ firstn r l)%list.

Lemma rotate_perm {A} (r : nat) (l : list A) : Permutation (rotate r l) l.
Proof.
  unfold rotate.
  rewrite <- (firstn_skipn r l) at 3.
  apply Permutation_app_comm.
Qed.

(** A linear congruential generator whose permutation is the rotation by
    the state. *)
Definition lcg_next (st : Z) : Z := (1103515245 * st + 12345) mod 2 ^ 31.

Definition lcg_permutation (st : Z) (k : nat) : list nat * Z :=
  (rotate (Z.to_nat (st mod Z.of_nat (Nat.max k 1))) (seq 0 k), lcg_next st).

#[export] Instance lcg : RandomSource := {|
  rng_state := Z;
  RandomState := fun seed => seed;
  permutation := lcg_permutation;
  permutation_perm := fun st k => rotate_perm _ (seq 0 k)
|}.

Definition tsv (fields : list string) : string :=
  String.concat (String tab EmptyString) fields.

Definition home : string := "/home/iaps".

Definition header : list string :=
  ["{\rtf1\ansi"; "{\fonttbl}"; "{\colortbl}"; "\margl1440";
   "\pard"; "IAPS ratings"; "desc IAPS valmn valsd"].

Definition scoring_lines : list string :=
  (header ++
   [tsv ["Snake"; "1050"; "3.46"; "2.15"; "6.87"; "1.68"; "3.08"; "1.93";
         "."; "."; "1\"];
    tsv ["Puppies"; "1710"; "8.34"; "1.12"; "5.41"; "2.34"; "6.55"; "1.97";
         "."; "."; "2\"];
    tsv ["Mutilation"; "3000"; "1.45"; "1.20"; "7.26"; "2.10"; "2.99";
         "2.10"; "."; "."; "3\"];
    tsv ["Aimed Gun"; "6570.1"; "2.19"; "1.72"; "6.24"; "2.16"; "."; ".";
         "2.88"; "2.07"; "14\"]])%list.

Definition disk : filesystem :=
  fun name =>
    if String.eqb name (IAPS_SCORING_FILENAME home)
    then Some scoring_lines else None.

End Fixture.

(** * Properties *)

(** ** Results and comprehensions *)

Lemma bind_ok {A B} (r : result A) (k : A -> result B) (b : B) :
  bind r k = Ok b -> exists a, r = Ok a /\ k a = Ok b.
Proof.
  destruct r as [a | e]; simpl; intros H; [ now exists a | discriminate ].
Qed.

Lemma bind_raise {A B} (r : result A) (k : A -> result B) (e : exn) :
  r = Raise e -> bind r k = Raise e.
Proof. now intros ->. Qed.

Ltac bind_inv H :=
  match type of H with
  | bind _ _ = Ok _ =>
      let a := fresh "a" in
      let Ha := fresh "Ha" in
      apply bind_ok in H; destruct H as (a & Ha & H)
  end.

Lemma mapM_ok {A B} (f : A -> result B) (l : list A) (ys : list B) :
  mapM f l = Ok ys <-> Forall2 (fun x y => f x = Ok y) l ys.
Proof.
  revert ys; induction l as [| x xs IH]; intros ys; simpl.
  - split; intros H.
    + injection H as <-. constructor.
    + now inversion H.
  - split; intros H.
    + bind_inv H. bind_inv H. injection H as <-.
      constructor; [ assumption | now apply IH ].
    + inversion H as [| ? y ? ys' Hx Hxs]; subst.
      rewrite Hx; simpl. apply IH in Hxs. now rewrite Hxs.
Qed.

Lemma mapM_length {A B} (f : A -> result B) (l : list A) (ys : list B) :
  mapM f l = Ok ys -> List.length ys = List.length l.
Proof.
  intros H. apply mapM_ok in H. symmetry. eapply Forall2_length; eauto.
Qed.


Lemma mapM_ext_in {A B} (f g : A -> result B) (l : list A) :
  (forall x, In x l -> f x = g x) -> mapM f l = mapM g l.
Proof.
  induction l as [| x xs IH]; simpl; intros H; [ reflexivity | ].
  rewrite (H x) by now left.
  rewrite IH by (intros; apply H; now right). reflexivity.
Qed.

(** ** Strings *)

Lemma length_app (x a : string) :
  String.length (x ++ a) = (String.length x + String.length a)%nat.
Proof. induction x; simpl; congruence. Qed.

Lemma substring_whole (a : string) : substring 0 (String.length a) a = a.
Proof. induction a; simpl; congruence. Qed.

Lemma substring_skip (x a : string) :
  substring (String.length x) (String.length a) (x ++ a) = a.
Proof. induction x; simpl; [ apply substring_whole | assumption ]. Qed.

(** A suffix as long as the one asked for is found iff it is that one. *)
Lemma endswith_app (x a b : string) :
  String.length a = String.length b ->
  endswith (x ++ a) b = String.eqb a b.
Proof.
  intros Hlen. unfold endswith. rewrite length_app, <- Hlen.
  replace (String.length a <=? String.length x + String.length a)%nat
    with true by (symmetry; apply Nat.leb_le; lia).
  replace (String.length x + String.length a - String.length a)%nat
    with (String.length x) by lia.
  now rewrite substring_skip.
Qed.

Lemma endswith_sound (s suf : string) :
  endswith s suf = true -> exists p, s = p ++ suf.
Proof.
  unfold endswith. intros H. apply andb_prop in H as [Hk He].
  apply Nat.leb_le in Hk. apply String.eqb_eq in He.
  exists (substring 0 (String.length s - String.length suf) s).
  rewrite <- He at 2.
  clear He. remember (String.length s - String.length suf)%nat as n eqn:Hn.
  assert (Hle : (n <= String.length s)%nat) by lia.
  replace (String.length suf) with (String.length s - n)%nat by lia.
  clear Hn Hk. revert n Hle.
  induction s as [| c s IH]; intros n Hle; simpl in *.
  - now replace n with 0%nat by lia.
  - destruct n as [| n]; simpl.
    + now rewrite substring_whole.
    + f_equal. apply IH. lia.
Qed.

Lemma last_char_app (x : string) (c : ascii) (r : string) :
  last_char (x ++ String c r) = last_char (String c r).
Proof.
  induction x as [| a x IH]; [ reflexivity | ].
  cbn [append]. cbn [last_char]. rewrite IH.
  destruct (x ++ String c r) eqn:E; [ | reflexivity ].
  destruct x; discriminate.
Qed.

Lemma in_strings_In (s : string) (l : list string) :
  in_strings s l = true <-> In s l.
Proof.
  unfold in_strings. rewrite existsb_exists. split.
  - intros (x & Hx & He). apply String.eqb_eq in He. now subst.
  - intros H. exists s. split; [ assumption | apply String.eqb_refl ].
Qed.

(** ** [full_filename] *)

(** The directory of the images. *)
Definition images_dir (home : string) : string :=
  join (IAPS_DIR home) ["IAPS 1-20 Images"].

Definition extension (name : string) : string :=
  if in_strings name upper_case_names then ".JPG" else ".jpg".

Lemma full_filename_join (home name : string) :
  full_filename home name = join (images_dir home) [name] ++ extension name.
Proof.
  unfold full_filename, extension, images_dir.
  destruct (in_strings name upper_case_names); reflexivity.
Qed.

Lemma join2_last (x : string) (c : ascii) (r : string) :
  Ascii.eqb c slash = false ->
  last_char (join2 x (String c r)) = last_char (String c r).
Proof.
  intros Hc. unfold join2. cbn [startswith]. rewrite Hc.
  destruct (String.eqb x EmptyString || endswith_char x slash).
  - apply last_char_app.
  - change (x ++ "/" ++ String c r) with (x ++ String "/" (String c r)).
    now rewrite last_char_app.
Qed.

Lemma images_dir_open (home : string) :
  String.eqb (images_dir home) EmptyString = false
  /\ endswith_char (images_dir home) slash = false.
Proof.
  assert (H : last_char (images_dir home) = Some "s"%char)
    by (unfold images_dir, join; cbn [fold_left]; now rewrite join2_last).
  split.
  - apply String.eqb_neq. intros E. rewrite E in H. discriminate.
  - unfold endswith_char. now rewrite H.
Qed.

(** A name that does not open with a slash lands inside the images
    directory. *)
Lemma full_filename_relative (home name : string) :
  startswith name slash = false ->
  full_filename home name
  = images_dir home ++ "/" ++ name ++ extension name.
Proof.
  intros Hrel. rewrite full_filename_join.
  destruct (images_dir_open home) as [Hne Hsl].
  unfold join; simpl. unfold join2. rewrite Hrel, Hne, Hsl. simpl.
  induction (images_dir home) as [| c d IH]; simpl.
  - induction name; simpl; congruence.
  - f_equal.
    clear. induction d as [| c d IH]; simpl; [ | now f_equal ].
    reflexivity.
Qed.

(** A name that opens with a slash is kept as it is: [join] drops the
    directory. *)
Lemma full_filename_absolute (home name : string) :
  startswith name slash = true ->
  full_filename home name = name ++ extension name.
Proof.
  intros Habs. rewrite full_filename_join.
  unfold join; simpl. unfold join2. now rewrite Habs.
Qed.

Lemma extension_cases (name : string) :
  (extension name = ".JPG" /\ In name upper_case_names)
  \/ (extension name = ".jpg" /\ ~ In name upper_case_names).
Proof.
  unfold extension.
  destruct (in_strings name upper_case_names) eqn:E.
  - left. split; [ reflexivity | now apply in_strings_In ].
  - right. split; [ reflexivity | ].
    intros H. apply in_strings_In in H. congruence.
Qed.

(** C4: [full_filename] returns the images directory joined with the
    identifier, followed by an extension; the extension is [.JPG] exactly
    when the identifier is one of "6570", "6570.1", "6561", "6560" and
    [.jpg] otherwise.  [full_filename "6570.1"] ends with [.JPG] and
    [full_filename "1000"] with [.jpg]. *)
Theorem full_filename_extension (home name : string) :
  full_filename home name = join (images_dir home) [name] ++ extension name
  /\ ((extension name = ".JPG"
       /\ (name = "6570" \/ name = "6570.1" \/ name = "6561"
           \/ name = "6560"))
      \/ (extension name = ".jpg"
          /\ name <> "6570" /\ name <> "6570.1" /\ name <> "6561"
          /\ name <> "6560"))
  /\ endswith (full_filename home "6570.1") ".JPG" = true
  /\ endswith (full_filename home "1000") ".jpg" = true.
Proof.
  split; [ apply full_filename_join | ].
  split.
  - destruct (extension_cases name) as [[He Hin] | [He Hout]].
    + left. split; [ assumption | ].
      simpl in Hin. intuition congruence.
    + right. split; [ assumption | ].
      simpl in Hout. repeat split; intros ->; apply Hout; tauto.
  - split; rewrite full_filename_join; now rewrite endswith_app.
Qed.

(** C10: [full_filename] is a total function of the identifier text and
    compares it with the four literals as text: every result ends with
    [.JPG] or with [.jpg], with [.JPG] exactly for the four literals, and
    "6570.0", equal to 6570 as a number, gets [.jpg]. *)
Theorem full_filename_exact_match (home name : string) :
  (endswith (full_filename home name) ".JPG" = true
   \/ endswith (full_filename home name) ".jpg" = true)
  /\ (endswith (full_filename home name) ".JPG" = true
      <-> In name ["6570"; "6570.1"; "6561"; "6560"])
  /\ endswith (full_filename home "6570.0") ".jpg" = true
  /\ endswith (full_filename home "6570.0") ".JPG" = false.
Proof.
  rewrite !(full_filename_join home).
  destruct (extension_cases name) as [[He Hin] | [He Hout]]; rewrite He.
  - rewrite !endswith_app by reflexivity. simpl.
    repeat split; auto.
  - rewrite !endswith_app by reflexivity. simpl.
    repeat split; auto; discriminate.
Qed.

(** ** Masks, [take] and [sample] *)

Lemma Forall2_nth_right {A B} (R : A -> B -> Prop) (l : list A)
    (l' : list B) (i : nat) (y : B) :
  Forall2 R l l' -> nth_error l' i = Some y ->
  exists x, nth_error l i = Some x /\ R x y.
Proof.
  intros H; revert i; induction H as [| x y' l l' Hxy _ IH]; intros i Hi.
  - destruct i; discriminate.
  - destruct i as [| i]; simpl in *.
    + injection Hi as ->. now exists x.
    + now apply IH.
Qed.

(** What [df.ix[mask, 'IAPS']] keeps sits in a row where the mask is
    true. *)
Lemma ix_In {A} (mask : list bool) (col : list A) (x : A) :
  In x (ix mask col) ->
  exists i, nth_error mask i = Some true /\ nth_error col i = Some x.
Proof.
  unfold ix. revert col; induction mask as [| b mask IH]; intros col Hx.
  - contradiction.
  - destruct col as [| c col]; [ contradiction | ].
    simpl in Hx. destruct b; simpl in Hx.
    + destruct Hx as [-> | Hx]; [ now exists 0%nat | ].
      destruct (IH col Hx) as (i & Hm & Hc). now exists (S i).
    + destruct (IH col Hx) as (i & Hm & Hc). now exists (S i).
Qed.

Lemma ix_length_le {A} (mask : list bool) (col : list A) :
  (List.length (ix mask col) <= List.length col)%nat.
Proof.
  unfold ix. rewrite length_map.
  etransitivity; [ apply filter_length_le | ].
  rewrite length_combine. lia.
Qed.

Section SampleFacts.

Context {rng : RandomSource}.

Lemma take_In {A} (population : list A) (locs : list nat) (l : list A) :
  take population locs = Ok l -> forall x, In x l -> In x population.
Proof.
  unfold take. intros H x Hx. apply mapM_ok in H.
  apply In_nth_error in Hx as (j & Hj).
  destruct (Forall2_nth_right _ _ _ _ _ H Hj) as (i & _ & Hi).
  destruct (nth_error population i) eqn:E; [ | discriminate ].
  injection Hi as ->. eapply nth_error_In; eauto.
Qed.

Lemma take_one {A} (population : list A) (i : nat) :
  (i < List.length population)%nat ->
  exists x, In x population /\ take population [i] = Ok [x].
Proof.
  intros Hi. unfold take; simpl.
  destruct (nth_error population i) as [x |] eqn:E.
  - exists x. split; [ eapply nth_error_In; eauto | reflexivity ].
  - apply nth_error_None in E. lia.
Qed.

(** The head of a permutation of the indices is an index. *)
Lemma permutation_head (st : rng_state) (k : nat) :
  (0 < k)%nat ->
  exists i p, fst (permutation st k) = i :: p /\ (i < k)%nat.
Proof.
  intros Hk. pose proof (permutation_perm st k) as Hp.
  destruct (fst (permutation st k)) as [| i p] eqn:E.
  - apply Permutation_length in Hp. rewrite length_seq in Hp.
    simpl in Hp. lia.
  - exists i, p. split; [ reflexivity | ].
    assert (Hin : In i (seq 0 k))
      by (eapply Permutation_in; [ exact Hp | now left ]).
    apply in_seq in Hin. lia.
Qed.

(** Every element drawn comes from the population. *)
Lemma sample_with_In {A} (population : list A) (n : option Z)
    (st st' : rng_state) (l : list A) :
  sample_with population n st = (Ok l, st') ->
  forall x, In x l -> In x population.
Proof.
  unfold sample_with.
  destruct (_ <? 0); [ discriminate | ].
  destruct (choice st _ _) as [[locs | e] st1]; [ | discriminate ].
  intros H. injection H as H _. now apply take_In with (locs := locs).
Qed.

(** Without [n] one element is drawn; an empty population raises. *)
Lemma sample_with_default {A} (population : list A) (st : rng_state) :
  match population with
  | [] => fst (sample_with population None st) = Raise ValueError
  | _ => exists x, In x population
                   /\ fst (sample_with population None st) = Ok [x]
  end.
Proof.
  destruct population as [| a population]; [ reflexivity | ].
  set (pop := a :: population).
  unfold sample_with, choice. simpl (1 <? 0).
  assert (Hlen : (0 < List.length pop)%nat) by (simpl; lia).
  destruct (List.length pop =? 0)%nat eqn:E0;
    [ apply Nat.eqb_eq in E0; lia | ].
  destruct (Z.of_nat (List.length pop) <? 1) eqn:E1;
    [ apply Z.ltb_lt in E1; lia | ].
  destruct (permutation_head st _ Hlen) as (i & p & Hp & Hi).
  destruct (permutation st (List.length pop)) as [q st1].
  simpl in Hp; subst q. simpl.
  destruct (take_one pop i Hi) as (x & Hx & Ht).
  exists x. split; [ assumption | ]. exact Ht.
Qed.

(** Asking for more than the population holds raises, and the generator
    is left as it was. *)
Lemma sample_with_too_many {A} (population : list A) (n : Z)
    (st : rng_state) :
  Z.of_nat (List.length population) < n ->
  sample_with population (Some n) st = (Raise ValueError, st).
Proof.
  intros Hn. unfold sample_with, choice.
  destruct (n <? 0) eqn:E; [ reflexivity | ].
  destruct (List.length population =? 0)%nat; [ reflexivity | ].
  apply Z.ltb_lt in Hn. now rewrite Hn.
Qed.

(** A seeded draw neither reads nor advances the global generator. *)
Lemma sample_seeded {A} (population : list A) (n : option Z) (seed : Z)
    (g1 g2 : rng_state) :
  fst (sample population n (Some seed) g1)
  = fst (sample population n (Some seed) g2)
  /\ snd (sample population n (Some seed) g1) = g1.
Proof.
  unfold sample. destruct (seed_ok seed); split; reflexivity.
Qed.

End SampleFacts.

(** ** The samplers *)

Section SamplerFacts.

Context {rng : RandomSource}.
Variable to_double : string -> option float.
Variable fs : filesystem.
Variable home : string.

Abbreviation scoring :=
  (read_scoring to_double fs (IAPS_SCORING_FILENAME home)).

(** The part the three samplers share: draw from the selected identifiers
    and resolve each one. *)
Definition sample_images (rows : result (list string))
    (n random_state : option Z) : M (list string) :=
  bindM (lift rows) (fun population =>
  bindM (sample population n random_state) (fun filenames =>
  lift (Ok (map (full_filename home) filenames)))).

Lemma sample_negative_images_eq n random_state threshold :
  sample_negative_images to_double fs home n random_state threshold
  = sample_images (negative_rows to_double fs home threshold)
                  n random_state.
Proof. reflexivity. Qed.

Lemma sample_positive_images_eq n random_state threshold :
  sample_positive_images to_double fs home n random_state threshold
  = sample_images (positive_rows to_double fs home threshold)
                  n random_state.
Proof. reflexivity. Qed.

Lemma sample_neutral_images_eq n random_state thresholds :
  sample_neutral_images to_double fs home n random_state thresholds
  = sample_images (neutral_rows to_double fs home thresholds)
                  n random_state.
Proof. reflexivity. Qed.

Lemma sample_images_raise rows n random_state e g :
  rows = Raise e -> sample_images rows n random_state g = (Raise e, g).
Proof. now intros ->. Qed.

Lemma sample_images_In rows n random_state g out g' :
  sample_images rows n random_state g = (Ok out, g') ->
  exists population,
    rows = Ok population
    /\ forall filename, In filename out ->
       exists id, In id population /\ filename = full_filename home id.
Proof.
  unfold sample_images, bindM, lift.
  destruct rows as [population | e]; [ | discriminate ].
  destruct (sample population n random_state g) as [[l | e] g1] eqn:Hs;
    [ | discriminate ].
  intros H. injection H as <- _.
  exists population. split; [ reflexivity | ].
  intros filename Hin. apply in_map_iff in Hin as (id & <- & Hid).
  exists id. split; [ | reflexivity ].
  unfold sample in Hs. destruct random_state as [seed |].
  - destruct (seed_ok seed); [ | discriminate ].
    injection Hs as Hs _.
    destruct (sample_with population n (RandomState seed)) as [r st] eqn:E.
    simpl in Hs; subst r. eapply sample_with_In; eauto.
  - eapply sample_with_In; eauto.
Qed.

Definition valid_random_state (random_state : option Z) : Prop :=
  match random_state with
  | Some seed => seed_ok seed = true
  | None => True
  end.

Lemma sample_images_fst population n random_state g :
  fst (sample_images (Ok population) n random_state g)
  = match fst (sample population n random_state g) with
    | Ok filenames => Ok (map (full_filename home) filenames)
    | Raise e => Raise e
    end.
Proof.
  unfold sample_images, lift. unfold bindM at 1. unfold bindM.
  destruct (sample population n random_state g) as [[l | e] g1];
    reflexivity.
Qed.

Lemma sample_images_default population random_state g :
  valid_random_state random_state ->
  match population with
  | [] => fst (sample_images (Ok population) None random_state g)
          = Raise ValueError
  | _ => exists id,
           In id population
           /\ fst (sample_images (Ok population) None random_state g)
              = Ok [full_filename home id]
  end.
Proof.
  intros Hrs. rewrite sample_images_fst.
  assert (Hst : exists st, fst (sample population None random_state g)
                           = fst (sample_with population None st)).
  { unfold sample. destruct random_state as [seed |].
    - simpl in Hrs. rewrite Hrs. now exists (RandomState seed).
    - now exists g. }
  destruct Hst as (st & ->).
  pose proof (sample_with_default population st) as H.
  destruct population as [| a p].
  - now rewrite H.
  - destruct H as (x & Hx & ->). now exists x.
Qed.

Lemma sample_images_too_many population n random_state g :
  Z.of_nat (List.length population) < n ->
  sample_images (Ok population) (Some n) random_state g
  = (Raise ValueError, g).
Proof.
  intros Hn. unfold sample_images, lift. unfold bindM at 1.
  unfold bindM, sample.
  destruct random_state as [seed |].
  - destruct (seed_ok seed); [ | reflexivity ].
    now rewrite sample_with_too_many.
  - now rewrite sample_with_too_many.
Qed.

Lemma sample_images_seeded rows n seed g1 g2 :
  fst (sample_images rows n (Some seed) g1)
  = fst (sample_images rows n (Some seed) g2)
  /\ snd (sample_images rows n (Some seed) g1) = g1.
Proof.
  unfold sample_images, lift. unfold bindM at 1 3 5.
  destruct rows as [population | e]; [ | now split ].
  unfold bindM, sample.
  destruct (seed_ok seed); [ | now split ].
  destruct (fst (sample_with population n (RandomState seed)));
    now split.
Qed.

(** *** The rows each sampler selects *)

Lemma mask_true (test : pyval -> result bool) (col : list pyval)
    (mask : list bool) (i : nat) :
  mapM test col = Ok mask -> nth_error mask i = Some true ->
  exists v, nth_error col i = Some v /\ test v = Ok true.
Proof.
  intros H Hi. apply mapM_ok in H.
  exact (Forall2_nth_right _ _ _ _ _ H Hi).
Qed.

Lemma le_threshold_true threshold v :
  le_threshold threshold v = Ok true ->
  exists f, as_double v = Some f /\ float_le f threshold = true.
Proof.
  unfold le_threshold. destruct (as_double v) as [f |]; [ | discriminate ].
  intros H. injection H as H. now exists f.
Qed.

Lemma ge_threshold_true threshold v :
  ge_threshold threshold v = Ok true ->
  exists f, as_double v = Some f /\ float_le threshold f = true.
Proof.
  unfold ge_threshold. destruct (as_double v) as [f |]; [ | discriminate ].
  intros H. injection H as H. now exists f.
Qed.

(** Row [i] of the table carries identifier [id] and a valence that
    passes [test]. *)
Definition row_with (df : DataFrame) (test : float -> bool) (id : string)
  : Prop :=
  exists i v f,
    nth_error (IAPS df) i = Some id
    /\ nth_error (valmn df) i = Some v
    /\ as_double v = Some f
    /\ test f = true.

Lemma negative_rows_spec threshold population :
  negative_rows to_double fs home threshold = Ok population ->
  exists df, scoring = Ok df
    /\ forall id, In id population ->
       row_with df (fun f => float_le f threshold) id.
Proof.
  unfold negative_rows. intros H. bind_inv H. bind_inv H.
  injection H as <-. rename a into df, a0 into mask.
  exists df. split; [ assumption | ].
  intros id Hid. apply ix_In in Hid as (i & Hm & Hc).
  destruct (mask_true _ _ _ _ Ha0 Hm) as (v & Hv & Ht).
  apply le_threshold_true in Ht as (f & Hf & Hle).
  now exists i, v, f.
Qed.

Lemma positive_rows_spec threshold population :
  positive_rows to_double fs home threshold = Ok population ->
  exists df, scoring = Ok df
    /\ forall id, In id population ->
       row_with df (fun f => float_le threshold f) id.
Proof.
  unfold positive_rows. intros H. bind_inv H. bind_inv H.
  injection H as <-. rename a into df, a0 into mask.
  exists df. split; [ assumption | ].
  intros id Hid. apply ix_In in Hid as (i & Hm & Hc).
  destruct (mask_true _ _ _ _ Ha0 Hm) as (v & Hv & Ht).
  apply ge_threshold_true in Ht as (f & Hf & Hle).
  now exists i, v, f.
Qed.

Lemma combine_and_true (lower upper : list bool) (i : nat) :
  nth_error (map (fun p => andb (fst p) (snd p)) (combine lower upper)) i
  = Some true ->
  nth_error lower i = Some true /\ nth_error upper i = Some true.
Proof.
  revert upper i; induction lower as [| a lower IH]; intros upper i H.
  - destruct i; discriminate.
  - destruct upper as [| b upper]; [ destruct i; discriminate | ].
    destruct i as [| i]; simpl in *.
    + injection H as H. apply andb_prop in H as [-> ->]. now split.
    + now apply IH.
Qed.

Lemma neutral_rows_spec thresholds population :
  neutral_rows to_double fs home thresholds = Ok population ->
  exists df, scoring = Ok df
    /\ forall id, In id population ->
       row_with df (fun f => float_le (fst thresholds) f
                             && float_le f (snd thresholds)) id.
Proof.
  unfold neutral_rows. intros H. bind_inv H. bind_inv H. bind_inv H.
  injection H as <-. rename a into df, a0 into lower, a1 into upper.
  exists df. split; [ assumption | ].
  intros id Hid. apply ix_In in Hid as (i & Hm & Hc).
  apply combine_and_true in Hm as [Hl Hu].
  destruct (mask_true _ _ _ _ Ha0 Hl) as (v & Hv & Ht).
  destruct (mask_true _ _ _ _ Ha1 Hu) as (v' & Hv' & Ht').
  assert (v' = v) by congruence; subst v'.
  apply ge_threshold_true in Ht as (f & Hf & Hge).
  apply le_threshold_true in Ht' as (f' & Hf' & Hle).
  assert (f' = f) by congruence; subst f'.
  exists i, v, f. now rewrite Hge, Hle.
Qed.

Lemma rows_raise e threshold thresholds :
  scoring = Raise e ->
  negative_rows to_double fs home threshold = Raise e
  /\ positive_rows to_double fs home threshold = Raise e
  /\ neutral_rows to_double fs home thresholds = Raise e.
Proof.
  intros H. unfold negative_rows, positive_rows, neutral_rows.
  now rewrite H.
Qed.

End SamplerFacts.

Section SamplerClaims.

Context {rng : RandomSource}.
Variable to_double : string -> option float.
Variable fs : filesystem.
Variable home : string.

Abbreviation scoring :=
  (read_scoring to_double fs (IAPS_SCORING_FILENAME home)).
Abbreviation negative := (sample_negative_images to_double fs home).
Abbreviation positive := (sample_positive_images to_double fs home).
Abbreviation neutral := (sample_neutral_images to_double fs home).

(** Every filename a run returns is the resolved identifier of a row of
    the table whose valence passes [test]. *)
Definition selects (test : float -> bool) (run : M (list string)) : Prop :=
  forall g out g',
    run g = (Ok out, g') ->
    exists df,
      scoring = Ok df
      /\ forall filename, In filename out ->
         exists id, filename = full_filename home id /\ row_with df test id.

Lemma sample_images_selects rows n random_state test :
  (forall population, rows = Ok population ->
     exists df, scoring = Ok df
       /\ forall id, In id population -> row_with df test id) ->
  selects test (sample_images home rows n random_state).
Proof.
  intros Hrows g out g' Hrun.
  apply sample_images_In in Hrun as (population & Hpop & Hout).
  destruct (Hrows population Hpop) as (df & Hdf & Hsel).
  exists df. split; [ assumption | ].
  intros filename Hin. destruct (Hout filename Hin) as (id & Hid & ->).
  exists id. split; [ reflexivity | now apply Hsel ].
Qed.

(** C2: every filename returned by [sample_negative_images] with
    threshold [T] comes from a row with [valmn <= T]; every one returned
    by [sample_positive_images] from a row with [valmn >= T]; every one
    returned by [sample_neutral_images] with thresholds [(a, b)] from a row
    with [a <= valmn <= b]. *)
Theorem sampled_rows_within_threshold (n random_state : option Z)
    (threshold : float) (thresholds : float * float) :
  selects (fun valence => float_le valence threshold)
          (negative n random_state threshold)
  /\ selects (fun valence => float_le threshold valence)
             (positive n random_state threshold)
  /\ selects (fun valence => float_le (fst thresholds) valence
                             && float_le valence (snd thresholds))
             (neutral n random_state thresholds).
Proof.
  split; [ | split ].
  - rewrite sample_negative_images_eq. apply sample_images_selects.
    apply negative_rows_spec.
  - rewrite sample_positive_images_eq. apply sample_images_selects.
    apply positive_rows_spec.
  - rewrite sample_neutral_images_eq. apply sample_images_selects.
    apply neutral_rows_spec.
Qed.

(** A run that draws a single filename, the one of a selected row, and
    that raises [ValueError] when no row is selected. *)
Definition draws_one (rows : result (list string)) (run : M (list string))
  : Prop :=
  forall population g,
    rows = Ok population ->
    match population with
    | [] => fst (run g) = Raise ValueError
    | _ => exists id,
             In id population /\ fst (run g) = Ok [full_filename home id]
    end.

(** C1, amended: without [n] every sampler draws a sample of size one.
    When at least one row passes the valence test the call returns exactly
    one filename, that of such a row; when none does it raises
    [ValueError]. *)
Theorem sample_without_n_draws_one (random_state : option Z)
    (threshold : float) (thresholds : float * float) :
  valid_random_state random_state ->
  draws_one (negative_rows to_double fs home threshold)
            (negative None random_state threshold)
  /\ draws_one (positive_rows to_double fs home threshold)
               (positive None random_state threshold)
  /\ draws_one (neutral_rows to_double fs home thresholds)
               (neutral None random_state thresholds).
Proof.
  intros Hrs.
  split; [ | split ]; intros population g Hrows;
    [ rewrite sample_negative_images_eq
    | rewrite sample_positive_images_eq
    | rewrite sample_neutral_images_eq ];
    rewrite Hrows; now apply sample_images_default.
Qed.

(** A run that raises [ValueError] whenever [n] exceeds the number of
    selected rows. *)
Definition rejects_large_n (rows : result (list string))
    (run : option Z -> M (list string)) : Prop :=
  forall population n g,
    rows = Ok population ->
    Z.of_nat (List.length population) < n ->
    fst (run (Some n) g) = Raise ValueError.

(** A run that hands on what [read_scoring] raises. *)
Definition propagates (run : M (list string)) : Prop :=
  forall e g, scoring = Raise e -> run g = (Raise e, g).

(** C7: for every sampler, an [n] above the number of rows that pass the
    valence test raises [ValueError], and an exception of [read_scoring]
    reaches the caller as it is. *)
Theorem sample_too_many_raises (n random_state : option Z)
    (threshold : float) (thresholds : float * float) :
  (rejects_large_n (negative_rows to_double fs home threshold)
                   (fun n => negative n random_state threshold)
   /\ rejects_large_n (positive_rows to_double fs home threshold)
                      (fun n => positive n random_state threshold)
   /\ rejects_large_n (neutral_rows to_double fs home thresholds)
                      (fun n => neutral n random_state thresholds))
  /\ (propagates (negative n random_state threshold)
      /\ propagates (positive n random_state threshold)
      /\ propagates (neutral n random_state thresholds)).
Proof.
  split.
  - split; [ | split ]; intros population k g Hrows Hk;
      [ rewrite sample_negative_images_eq
      | rewrite sample_positive_images_eq
      | rewrite sample_neutral_images_eq ];
      rewrite Hrows; now rewrite sample_images_too_many.
  - split; [ | split ]; intros e g He;
      destruct (rows_raise to_double fs home e threshold thresholds He)
        as (Hn & Hp & Hm);
      [ rewrite sample_negative_images_eq
      | rewrite sample_positive_images_eq
      | rewrite sample_neutral_images_eq ];
      now apply sample_images_raise.
Qed.

(** A run whose result does not depend on the state of the global
    generator and that leaves this state alone, so that a second call made
    after the first returns the same result. *)
Definition reproducible (run : M (list string)) : Prop :=
  forall g1 g2,
    fst (run g1) = fst (run g2)
    /\ snd (run g1) = g1
    /\ fst (run (snd (run g1))) = fst (run g1).

Lemma sample_images_reproducible rows n seed :
  reproducible (sample_images home rows n (Some seed)).
Proof.
  intros g1 g2.
  destruct (sample_images_seeded home rows n seed g1 g2) as [Hfst Hsnd].
  repeat split; [ assumption | assumption | now rewrite Hsnd ].
Qed.

(** C6: two calls of a sampler with the same seed, the same [n] and the
    same file system return the same sequence of filenames. *)
Theorem seeded_sampling_is_reproducible (n : option Z) (seed : Z)
    (threshold : float) (thresholds : float * float) :
  reproducible (negative n (Some seed) threshold)
  /\ reproducible (positive n (Some seed) threshold)
  /\ reproducible (neutral n (Some seed) thresholds).
Proof.
  split; [ | split ];
    [ rewrite sample_negative_images_eq
    | rewrite sample_positive_images_eq
    | rewrite sample_neutral_images_eq ];
    apply sample_images_reproducible.
Qed.

End SamplerClaims.

(** *** The samplers on the reference instance *)

Module SamplerRuns.

Import Fixture.

Definition run_negative n random_state :=
  sample_negative_images (rng := lcg) strtod disk home n random_state
    default_negative_threshold.

Example negative_population :
  negative_rows strtod disk home default_negative_threshold
  = Ok ["3000"; "6570.1"].
Proof. vm_compute. reflexivity. Qed.

Example two_negative_images :
  fst (run_negative (Some 2) None 5)
  = Ok [full_filename home "6570.1"; full_filename home "3000"].
Proof. vm_compute. reflexivity. Qed.

(** Without a seed two calls in a row need not agree: the second starts
    from the generator the first left. *)
Example unseeded_calls_differ :
  let first := run_negative (Some 2) None 5 in
  let second := run_negative (Some 2) None (snd first) in
  fst first <> fst second.
Proof. vm_compute. discriminate. Qed.

End SamplerRuns.

(** C1 as stated fails: two rows of the reference file have a valence of
    at most 3, and the call without [n] returns one filename, not both. *)
Lemma sample_without_n_is_not_everything :
  negative_rows Fixture.strtod Fixture.disk Fixture.home
    default_negative_threshold = Ok ["3000"; "6570.1"]
  /\ fst (SamplerRuns.run_negative None (Some 0) 5)
     = Ok [full_filename Fixture.home "3000"]
  /\ fst (SamplerRuns.run_negative None (Some 0) 5)
     <> Ok (map (full_filename Fixture.home) ["3000"; "6570.1"]).
Proof. vm_compute. repeat split. discriminate. Qed.

Lemma sample_without_n_draws_one_witness :
  valid_random_state (Some 0)
  /\ exists id,
       In id ["3000"; "6570.1"]
       /\ fst (SamplerRuns.run_negative None (Some 0) 5)
          = Ok [full_filename Fixture.home id].
Proof.
  split; [ reflexivity | ].
  refine (proj1 (sample_without_n_draws_one (rng := Fixture.lcg)
                   Fixture.strtod Fixture.disk Fixture.home (Some 0)
                   default_negative_threshold default_neutral_thresholds _)
                ["3000"; "6570.1"] 5 _).
  - reflexivity.
  - vm_compute. reflexivity.
Defined.

Lemma sampled_rows_within_threshold_witness :
  fst (SamplerRuns.run_negative (Some 2) None 5)
  = Ok [full_filename Fixture.home "6570.1"; full_filename Fixture.home "3000"]
  /\ exists df,
       read_scoring Fixture.strtod Fixture.disk
         (IAPS_SCORING_FILENAME Fixture.home) = Ok df
       /\ forall filename,
            In filename [full_filename Fixture.home "6570.1";
                         full_filename Fixture.home "3000"] ->
            exists id,
              filename = full_filename Fixture.home id
              /\ row_with df
                   (fun valence => float_le valence default_negative_threshold)
                   id.
Proof.
  split; [ vm_compute; reflexivity | ].
  refine (proj1 (sampled_rows_within_threshold (rng := Fixture.lcg)
                   Fixture.strtod Fixture.disk Fixture.home (Some 2) None
                   default_negative_threshold default_neutral_thresholds)
                5 _ (snd (SamplerRuns.run_negative (Some 2) None 5)) _).
  vm_compute. reflexivity.
Defined.

Lemma sample_too_many_raises_witness :
  fst (SamplerRuns.run_negative (Some 3) (Some 7) 5) = Raise ValueError
  /\ sample_positive_images (rng := Fixture.lcg) Fixture.strtod
       (fun _ => None) Fixture.home (Some 1) None default_positive_threshold 5
     = (Raise IOError, 5).
Proof.
  pose proof (sample_too_many_raises (rng := Fixture.lcg) Fixture.strtod
                Fixture.disk Fixture.home None (Some 7)
                default_negative_threshold default_neutral_thresholds)
    as [[Hlarge _] _].
  pose proof (sample_too_many_raises (rng := Fixture.lcg) Fixture.strtod
                (fun _ => None) Fixture.home (Some 1) None
                default_positive_threshold default_neutral_thresholds)
    as [_ [_ [Hraise _]]].
  split.
  - apply (Hlarge ["3000"; "6570.1"] 3 5).
    + vm_compute. reflexivity.
    + reflexivity.
  - apply Hraise. reflexivity.
Defined.

(** ** Numbers as text *)

Lemma string_of_uint_digits (d : Decimal.uint) :
  all_chars is_digit (NilEmpty.string_of_uint d) = true.
Proof. induction d; simpl; auto. Qed.

Lemma str_int_digits (z : Z) :
  0 <= z ->
  all_chars is_digit (str_int z) = true /\ str_int z <> EmptyString.
Proof.
  intros Hz. unfold str_int.
  destruct z as [| p | p]; [ now split | | lia ].
  simpl. unfold NilZero.string_of_uint.
  destruct (Pos.to_uint p) eqn:E; try (now split);
    (split; [ rewrite <- E at 1 | ]);
    try (rewrite E; apply string_of_uint_digits); discriminate.
Qed.

Lemma digit_char_digit (d : Z) : 0 <= d < 10 -> is_digit (digit_char d) = true.
Proof.
  intros Hd. unfold digit_char.
  assert (H : In (Z.to_nat d) (seq 0 10)) by (apply in_seq; lia).
  simpl in H.
  repeat (destruct H as [<- | H]; [ reflexivity | ]). contradiction.
Qed.

Lemma round_half_even_nonneg (n d : Z) :
  0 <= n -> 0 < d -> 0 <= round_half_even n d.
Proof.
  intros Hn Hd. unfold round_half_even.
  assert (0 <= n / d) by (apply Z.div_pos; lia).
  destruct (2 * (n mod d) ?= d); [ destruct (Z.even (n / d)) | | ]; lia.
Qed.

Lemma tenths_nonneg (m : positive) (e : Z) : 0 <= tenths m e.
Proof.
  unfold tenths. destruct (0 <=? e) eqn:E.
  - apply Z.leb_le in E. apply Z.mul_nonneg_nonneg; [ lia | ].
    apply Z.pow_nonneg. lia.
  - apply Z.leb_gt in E. apply round_half_even_nonneg; [ lia | ].
    apply Z.pow_pos_nonneg; lia.
Qed.

(** Text with exactly one digit after the decimal point: an optional minus
    sign, at least one digit, the point, one digit. *)
Definition one_decimal_digit (s : string) : Prop :=
  exists sign whole d,
    s = sign ++ whole ++ "." ++ String d EmptyString
    /\ (sign = EmptyString \/ sign = "-")
    /\ whole <> EmptyString
    /\ all_chars is_digit whole = true
    /\ is_digit d = true.

Lemma format_tenths_shape (neg : bool) (q : Z) :
  0 <= q -> one_decimal_digit (format_tenths neg q).
Proof.
  intros Hq. unfold format_tenths.
  destruct (str_int_digits (q / 10)) as [Hd Hne];
    [ apply Z.div_pos; lia | ].
  exists (if neg then "-" else ""), (str_int (q / 10)), (digit_char (q mod 10)).
  repeat split; try assumption.
  - destruct neg; auto.
  - apply digit_char_digit. apply Z.mod_pos_bound. lia.
Qed.

Lemma format_1f_shape (f : float) :
  is_finite f = true -> one_decimal_digit (format_1f f).
Proof.
  destruct f as [s | s | | s m e]; try discriminate; intros _; simpl.
  - now apply format_tenths_shape.
  - apply format_tenths_shape, tenths_nonneg.
Qed.

Lemma bit_length_bound (p : positive) (k : Z) :
  0 < k -> Zpos p < 2 ^ k -> bit_length p <= k.
Proof.
  intros Hk Hp. unfold bit_length.
  assert (Z.log2 (Zpos p) < k) by (apply Z.log2_lt_pow2; lia). lia.
Qed.

Lemma float_of_pos_finite (neg : bool) (p : positive) :
  Zpos p < 2 ^ 64 -> is_finite (float_of_pos neg p) = true.
Proof.
  intros Hp. pose proof (bit_length_bound p 64 ltac:(lia) Hp) as Hd.
  unfold float_of_pos.
  destruct (bit_length p <=? 53); [ reflexivity | ].
  match goal with
  | |- context [if ?c then S754_finite _ _ _ else _] =>
      destruct c eqn:E; [ reflexivity | ]
  end.
  apply Z.leb_gt in E.
  destruct (_ =? 2 ^ 53); simpl in E; lia.
Qed.

(** An int64 converts to a finite double. *)
Lemma float_of_Z_finite (z : Z) :
  in_int64 z = true -> is_finite (float_of_Z z) = true.
Proof.
  unfold in_int64, int64_min, int64_max. intros H.
  apply andb_prop in H as [Hlo Hhi].
  apply Z.leb_le in Hlo, Hhi.
  destruct z as [| p | p]; [ reflexivity | | ];
    apply float_of_pos_finite; lia.
Qed.

Lemma trunc_float_finite (f : float) (i : Z) :
  trunc_float f = Ok i -> is_finite f = true.
Proof. destruct f; simpl; congruence. Qed.

(** The conversion agrees with the rounding of the standard library's
    specification on both sides of every case of the definition. *)
Example float_of_Z_rounding :
  map float_of_Z
      [0; 1; -7; 9941; 2 ^ 53; 2 ^ 53 + 1; 2 ^ 53 + 3; 2 ^ 54 - 1;
       2 ^ 63 - 1; - 2 ^ 63; 2 ^ 64 + 2 ^ 11; 2 ^ 64 + 3 * 2 ^ 11;
       2 ^ 1024 - 2 ^ 970 - 1; 2 ^ 1024 - 2 ^ 970; 2 ^ 1024]
  = map (fun z => binary_normalize 53 1024 z 0 false)
      [0; 1; -7; 9941; 2 ^ 53; 2 ^ 53 + 1; 2 ^ 53 + 3; 2 ^ 54 - 1;
       2 ^ 63 - 1; - 2 ^ 63; 2 ^ 64 + 2 ^ 11; 2 ^ 64 + 3 * 2 ^ 11;
       2 ^ 1024 - 2 ^ 970 - 1; 2 ^ 1024 - 2 ^ 970; 2 ^ 1024].
Proof. vm_compute. reflexivity. Qed.

(** ** Columns as [read_csv] types them *)

Lemma Forall2_map_self {A B} (R : A -> B -> Prop) (f : A -> B)
    (l : list A) :
  Forall (fun x => R x (f x)) l -> Forall2 R l (map f l).
Proof. induction 1; simpl; constructor; assumption. Qed.

Lemma Forall2_compose {A B C} (R : A -> B -> Prop) (Q : B -> C -> Prop)
    (l1 : list A) (l2 : list B) (l3 : list C) :
  Forall2 R l1 l2 -> Forall2 Q l2 l3 ->
  Forall2 (fun a c => exists b, R a b /\ Q b c) l1 l3.
Proof.
  intros H; revert l3; induction H as [| a b l1 l2 Hab _ IH]; intros l3 H3.
  - inversion H3. constructor.
  - inversion H3 as [| ? c ? l3' Hbc Hrest]; subst.
    constructor; [ now exists b | now apply IH ].
Qed.

Lemma Forall2_impl {A B} (R Q : A -> B -> Prop) (l : list A)
    (l' : list B) :
  (forall a b, R a b -> Q a b) -> Forall2 R l l' -> Forall2 Q l l'.
Proof. intros HRQ; induction 1; constructor; auto. Qed.

Lemma Forall2_left {A B} (R : A -> B -> Prop) (P : A -> Prop)
    (l : list A) (l' : list B) :
  (forall a b, R a b -> P a) -> Forall2 R l l' -> Forall P l.
Proof. intros HRP; induction 1; constructor; eauto. Qed.

Lemma Forall2_right {A B} (R : A -> B -> Prop) (P : B -> Prop)
    (l : list A) (l' : list B) :
  (forall a b, R a b -> P b) -> Forall2 R l l' -> Forall P l'.
Proof. intros HRP; induction 1; constructor; eauto. Qed.

Lemma Forall2_with_left {A B} (P : A -> Prop) (R Q : A -> B -> Prop)
    (l : list A) (l' : list B) :
  (forall a b, P a -> R a b -> Q a b) ->
  Forall P l -> Forall2 R l l' -> Forall2 Q l l'.
Proof.
  intros HQ HP H; induction H; constructor; inversion HP; subst; auto.
Qed.

Lemma drop_last_spec (s : string) :
  s <> EmptyString -> exists c, s = drop_last s ++ String c EmptyString.
Proof.
  induction s as [| a s IH]; [ congruence | intros _ ].
  destruct s as [| b s].
  - now exists a.
  - destruct IH as (c & Hc); [ discriminate | ].
    exists c.
    change (drop_last (String a (String b s)))
      with (String a (drop_last (String b s))).
    cbn [append]. now f_equal.
Qed.

Section ReaderFacts.

Variable to_double : string -> option float.

(** How one field of a column ends up as a Python value. *)
Inductive converts (s : string) : pyval -> Prop :=
| converts_int z :
    is_na s = false -> int64_literal s = Some z -> converts s (PyInt z)
| converts_float f :
    is_na s = false -> to_double s = Some f -> converts s (PyFloat f)
| converts_na :
    is_na s = true -> converts s (PyFloat nan)
| converts_text :
    is_na s = false -> converts s (PyStr s).

Lemma infer_column_converts (fields : list string) :
  Forall2 converts fields (infer_column to_double fields).
Proof.
  unfold infer_column.
  destruct (forallb (int_field) fields) eqn:Ei;
    [ | destruct (forallb (float_field to_double) fields) eqn:Ef ];
    apply Forall2_map_self, Forall_forall; intros s Hs.
  - rewrite forallb_forall in Ei. specialize (Ei s Hs).
    unfold int_field in Ei. apply andb_prop in Ei as [Hna Hz].
    apply negb_true_iff in Hna. unfold as_int.
    destruct (int64_literal s) as [z |] eqn:E; [ | discriminate ].
    now constructor.
  - rewrite forallb_forall in Ef. specialize (Ef s Hs).
    unfold float_field in Ef. unfold as_float.
    destruct (is_na s) eqn:Hna; [ now constructor | ].
    simpl in Ef. destruct (to_double s) as [f |] eqn:E; [ | discriminate ].
    now constructor.
  - unfold as_object. destruct (is_na s) eqn:Hna; now constructor.
Qed.

Lemma infer_column_length (fields : list string) :
  List.length (infer_column to_double fields) = List.length fields.
Proof.
  symmetry. eapply Forall2_length, infer_column_converts.
Qed.

Lemma converts_na_inv (s : string) (v : pyval) :
  converts s v -> is_na s = true -> v = PyFloat nan.
Proof. destruct 1; congruence. Qed.

Lemma converts_text_inv (s t : string) :
  converts s (PyStr t) -> t = s /\ is_na s = false.
Proof. inversion 1; now split. Qed.

Lemma converts_int_inv (s : string) (z : Z) :
  converts s (PyInt z) -> in_int64 z = true.
Proof.
  inversion 1 as [z' _ Hz | | |]; subst. unfold int64_literal in Hz.
  destruct (int_literal s) as [z' |]; [ | discriminate ].
  destruct (in_int64 z') eqn:E; [ | discriminate ]. congruence.
Qed.

Lemma infer_column_int64 (fields : list string) :
  Forall (fun e => forall z, e = PyInt z -> in_int64 z = true)
         (infer_column to_double fields).
Proof.
  eapply Forall2_right; [ | apply infer_column_converts ].
  intros s v Hsv z ->. eapply converts_int_inv; eauto.
Qed.

(** *** The frame [read_csv] builds *)

(** The column of [df] that carries [name], for the nine columns
    [read_scoring] leaves as they are. *)
Definition value_column {I S} (df : Frame I S) (name : string)
  : list pyval :=
  if String.eqb name "desc" then desc df
  else if String.eqb name "valmn" then valmn df
  else if String.eqb name "valsd" then valsd df
  else if String.eqb name "aromn" then aromn df
  else if String.eqb name "arosd" then arosd df
  else if String.eqb name "dom1mn" then dom1mn df
  else if String.eqb name "dom1sd" then dom1sd df
  else if String.eqb name "dom2mn" then dom2mn df
  else if String.eqb name "dom2sd" then dom2sd df
  else [].

Definition frame_of_rows (rows : list (list string)) : RawFrame :=
  let col k := infer_column to_double (column k rows) in
  mkFrame (col 0%nat) (col 1%nat) (col 2%nat) (col 3%nat) (col 4%nat)
          (col 5%nat) (col 6%nat) (col 7%nat) (col 8%nat) (col 9%nat)
          (col 10%nat).

Lemma read_csv_ok (fs : filesystem) (filename : string) (raw : RawFrame) :
  read_csv to_double fs filename = Ok raw ->
  exists lines rows,
    fs filename = Some lines
    /\ tokenize lines = Ok rows
    /\ raw = frame_of_rows rows.
Proof.
  unfold read_csv. destruct (fs filename) as [lines |]; [ | discriminate ].
  intros H. bind_inv H. injection H as <-. now exists lines, a.
Qed.

Lemma read_csv_rows (fs : filesystem) (filename : string)
    (lines : list string) (rows : list (list string)) :
  fs filename = Some lines -> tokenize lines = Ok rows ->
  read_csv to_double fs filename = Ok (frame_of_rows rows).
Proof. unfold read_csv. now intros -> ->. Qed.

(** The cleaning steps of [read_scoring] on a frame. *)
Definition clean (raw : RawFrame) : result DataFrame :=
  stripped <- mapM slice_drop_last (set raw) ;;
  numbers <- mapM astype_int stripped ;;
  identifiers <- mapM clean_identifier (IAPS raw) ;;
  Ok (mkFrame (desc raw) identifiers (valmn raw) (valsd raw) (aromn raw)
              (arosd raw) (dom1mn raw) (dom1sd raw) (dom2mn raw)
              (dom2sd raw) numbers).

Lemma read_scoring_clean (fs : filesystem) (filename : string) :
  read_scoring to_double fs filename
  = (raw <- read_csv to_double fs filename ;; clean raw).
Proof. reflexivity. Qed.

Lemma clean_ok (raw : RawFrame) (df : DataFrame) :
  clean raw = Ok df ->
  (exists stripped,
      mapM slice_drop_last (set raw) = Ok stripped
      /\ mapM astype_int stripped = Ok (set df))
  /\ mapM clean_identifier (IAPS raw) = Ok (IAPS df)
  /\ forall name, value_column df name = value_column raw name.
Proof.
  unfold clean. intros H. bind_inv H. bind_inv H. bind_inv H.
  injection H as <-. simpl. repeat split; eauto.
Qed.

Lemma read_scoring_ok (fs : filesystem) (filename : string)
    (df : DataFrame) :
  read_scoring to_double fs filename = Ok df ->
  exists lines rows,
    fs filename = Some lines
    /\ tokenize lines = Ok rows
    /\ clean (frame_of_rows rows) = Ok df.
Proof.
  rewrite read_scoring_clean. intros H. bind_inv H.
  apply read_csv_ok in Ha as (lines & rows & Hfs & Htok & ->).
  now exists lines, rows.
Qed.

End ReaderFacts.

(** ** [read_scoring]: the identifier and the set number *)

(** [identifier] is what the comprehension over [df.IAPS] makes of
    [element]: the decimal text of [int(element)] when this integer equals
    [float(element)], and otherwise ["%.1f" % element], which has exactly
    one digit after the point. *)
Definition normalized (element : pyval) (identifier : string) : Prop :=
  exists i f,
    py_int element = Ok i
    /\ py_float element = Ok f
    /\ if int_eq_float i f
       then identifier = str_int i
       else percent_1f element = Ok identifier
            /\ one_decimal_digit identifier.

Lemma clean_identifier_normalized (element : pyval) (identifier : string) :
  (forall z, element = PyInt z -> in_int64 z = true) ->
  clean_identifier element = Ok identifier ->
  normalized element identifier.
Proof.
  intros Hrange H. unfold clean_identifier in H.
  bind_inv H. bind_inv H. rename a into i, a0 into f.
  exists i, f. repeat split; try assumption.
  destruct (int_eq_float i f); [ congruence | ].
  split; [ assumption | ].
  destruct element as [s | z | f0]; simpl in *.
  - discriminate.
  - injection H as <-. apply format_1f_shape, float_of_Z_finite. auto.
  - injection H as <-. apply format_1f_shape.
    eapply trunc_float_finite; eauto.
Qed.

(** The two identifiers the specification names, as [read_csv] delivers
    them: the doubles nearest to 9941.0 and to 6570.1. *)
Definition double_9941 : float := Fixture.nearest_double false 99410 1.
Definition double_6570_1 : float := Fixture.nearest_double false 65701 1.

Section IdentifierClaims.

Variable to_double : string -> option float.

(** C3: in every table [read_scoring] returns, the identifier of a row is
    the decimal text of the integer truncation of the raw value when the
    truncation equals the value, and otherwise the value printed with
    exactly one digit after the decimal point; 9941.0 becomes "9941" and
    6570.1 becomes "6570.1". *)
Theorem identifier_normalization :
  (forall (fs : filesystem) (filename : string) (raw : RawFrame)
          (df : DataFrame),
      read_csv to_double fs filename = Ok raw ->
      read_scoring to_double fs filename = Ok df ->
      Forall2 normalized (IAPS raw) (IAPS df))
  /\ clean_identifier (PyFloat double_9941) = Ok "9941"
  /\ clean_identifier (PyFloat double_6570_1) = Ok "6570.1".
Proof.
  split; [ | split; vm_compute; reflexivity ].
  intros fs filename raw df Hraw Hdf.
  rewrite read_scoring_clean, Hraw in Hdf. simpl in Hdf.
  apply clean_ok in Hdf as (_ & Hid & _).
  apply mapM_ok in Hid.
  apply read_csv_ok in Hraw as (lines & rows & _ & _ & ->).
  simpl in *.
  eapply Forall2_with_left;
    [ | apply (infer_column_int64 to_double (column 1 rows)) | exact Hid ].
  intros element identifier Hrange Hclean.
  now apply clean_identifier_normalized.
Qed.

(** C8: in every table [read_scoring] returns, each row of the set column
    that [read_csv] delivered is text, and the set number of the row is
    the integer that [int] reads in this text without its last character,
    whatever that character is; the stored number is an int64. *)
Theorem set_number_conversion (fs : filesystem) (filename : string)
    (raw : RawFrame) (df : DataFrame) :
  read_csv to_double fs filename = Ok raw ->
  read_scoring to_double fs filename = Ok df ->
  Forall2 (fun element number =>
             exists field last,
               element = PyStr field
               /\ field = drop_last field ++ String last EmptyString
               /\ python_int (drop_last field) = Some number
               /\ in_int64 number = true)
          (set raw) (set df).
Proof.
  intros Hraw Hdf.
  rewrite read_scoring_clean, Hraw in Hdf. cbn [bind] in Hdf.
  apply clean_ok in Hdf as ((stripped & Hstrip & Hnum) & _ & _).
  apply mapM_ok in Hstrip, Hnum.
  pose proof (Forall2_compose _ _ _ _ _ Hstrip Hnum) as H.
  eapply Forall2_impl; [ | exact H ].
  intros element number (s & Hs & Hz). simpl in *.
  destruct element as [field | |]; try discriminate.
  injection Hs as <-.
  unfold astype_int in Hz.
  destruct (python_int (drop_last field)) as [z |] eqn:Hint;
    [ | discriminate ].
  destruct (in_int64 z) eqn:Hr; [ | discriminate ].
  injection Hz as ->.
  destruct (drop_last_spec field) as (last & Hlast).
  { intros ->. discriminate. }
  now exists field, last.
Qed.

End IdentifierClaims.

(** ** [read_scoring]: rows, columns and missing values *)



Lemma value_column_frame {I S} (df : Frame I S) (k : nat) (name : string) :
  nth_error columns k = Some name ->
  name <> "IAPS" -> name <> "set" ->
  value_column df name
  = nth k [desc df; []; valmn df; valsd df; aromn df; arosd df;
           dom1mn df; dom1sd df; dom2mn df; dom2sd df] [].
Proof.
  intros Hk Hi Hs.
  do 11 (destruct k as [| k];
         [ injection Hk as <-; try reflexivity; congruence | ]).
  destruct k; discriminate.
Qed.

Section TableClaims.

Variable to_double : string -> option float.

(** A field of the identifier column that [read_scoring] can clean:
    present, a finite number, with an integer part within int64. *)
Definition valid_identifier (s : string) : bool :=
  negb (is_na s)
  && match to_double s with
     | Some f => is_finite f
     | None => false
     end
  && within_int64 s.

(** The longest text [int] reads whatever the version of Python: from
    3.11 on, [int] refuses a text of more than 4300 digits. *)
Definition int_max_str_digits : nat := 4300.

(** A field of the set column that [read_scoring] can clean: present, not
    a number as it stands, and an int64 once its last character is
    gone. *)
Definition valid_set (s : string) : bool :=
  negb (is_na s)
  && negb (is_some (int_literal s))
  && negb (is_some (to_double s))
  && (String.length s <=? int_max_str_digits)%nat
  && is_ok (astype_int (drop_last s)).

(** A data line: eleven tab-separated fields, none of them opening with
    an integer outside the int64 range, with an identifier and a set
    number that can be cleaned. *)
Definition valid_line (l : string) : bool :=
  let fields := split_on tab l in
  forallb within_int64 fields
  && (List.length fields =? width)%nat
  && valid_identifier (nth 1 fields EmptyString)
  && valid_set (nth 10 fields EmptyString).

(** The rows pandas types in one piece: with [low_memory], the default,
    [read_csv] reads a table of eleven columns 65536 rows at a time. *)
Definition buffer_lines : Z := 65536.

(** A valid input file: plain text (printable ASCII and tabs, no double
    quote) with seven lines of header, whatever they say, followed by at
    least one line and at most [buffer_lines], each of them a data
    line. *)
Definition valid_file (lines : list string) : bool :=
  forallb plain_line lines
  && (7 <? List.length lines)%nat
  && (Z.of_nat (List.length lines) <=? 7 + buffer_lines)
  && forallb valid_line (skipn 7 lines).















End TableClaims.

Lemma Forall2_nth_left {A B} (R : A -> B -> Prop) (l : list A)
    (l' : list B) (i : nat) (x : A) :
  Forall2 R l l' -> nth_error l i = Some x ->
  exists y, nth_error l' i = Some y /\ R x y.
Proof.
  intros H; revert i; induction H as [| x' y l l' Hxy _ IH]; intros i Hi.
  - destruct i; discriminate.
  - destruct i as [| i]; simpl in *.
    + injection Hi as ->. now exists y.
    + now apply IH.
Qed.



Section TableTheorems.

Variable to_double : string -> option float.

Lemma frame_of_rows_column (rows : list (list string)) (k : nat)
    (name : string) :
  nth_error columns k = Some name ->
  name <> "IAPS" -> name <> "set" ->
  value_column (frame_of_rows to_double rows) name
  = infer_column to_double (column k rows).
Proof.
  intros Hk Hi Hs. rewrite (value_column_frame _ k name Hk Hi Hs).
  do 11 (destruct k as [| k];
         [ injection Hk as <-; try reflexivity; congruence | ]).
  destruct k; discriminate.
Qed.







End TableTheorems.

(** ** [read_scoring] on the reference file *)

Module ReaderRuns.

Import Fixture.

Definition scoring_file : string := IAPS_SCORING_FILENAME home.

(** The frame [read_csv] builds from the reference file, and the table
    [read_scoring] returns. *)
Definition raw_table : RawFrame :=
  Eval vm_compute in frame_of_rows strtod
    (map (split_on tab) (skipn 7 scoring_lines)).

Definition table : DataFrame :=
  Eval vm_compute in
    match read_scoring strtod disk scoring_file with
    | Ok df => df
    | Raise _ => mkFrame [] [] [] [] [] [] [] [] [] [] []
    end.

Example read_csv_reference : read_csv strtod disk scoring_file = Ok raw_table.
Proof. vm_compute. reflexivity. Qed.

Example read_scoring_reference :
  read_scoring strtod disk scoring_file = Ok table.
Proof. vm_compute. reflexivity. Qed.

Example reference_identifiers :
  IAPS table = ["1050"; "1710"; "3000"; "6570.1"]
  /\ set table = [1; 2; 3; 14].
Proof. split; reflexivity. Qed.


Definition snake (identifier set_number : string) : list string :=
  ["Snake"; identifier; "3.46"; "2.15"; "6.87"; "1.68"; "3.08"; "1.93";
   "."; "."; set_number].

(** A blank line after the header is not a row. *)
Example blank_line_is_skipped :
  option_map (fun df => nrows df)
    (match read_scoring strtod
             (fun _ => Some (header ++ [tsv (snake "1050" "1\"); "   ";
                                        tsv (snake "1052" "2\")])%list)
             scoring_file with
     | Ok df => Some df
     | Raise _ => None
     end)
  = Some 2%nat.
Proof. vm_compute. reflexivity. Qed.

(** [int] on text takes blanks around the digits and single underscores
    between them. *)
Example int_of_text :
  python_int " 12 " = Some 12
  /\ python_int "1_0" = Some 10
  /\ python_int "-7" = Some (-7)
  /\ python_int "1__0" = None
  /\ python_int "_1" = None
  /\ python_int "1." = None
  /\ python_int "" = None.
Proof. vm_compute. repeat split. Qed.

(** The reference file is plain text and valid; a double quote in a field
    takes a file out of both. *)
Example reference_file_is_plain :
  plain_file scoring_lines = true
  /\ valid_file strtod scoring_lines = true
  /\ plain_file
       (header
        ++ [tsv (String (ascii_of_nat 34) "Snake" :: tl (snake "1050" "1\"))])
     = false.
Proof. vm_compute. repeat split. Qed.

End ReaderRuns.


Lemma identifier_normalization_witness :
  Forall2 normalized (IAPS ReaderRuns.raw_table)
          ["1050"; "1710"; "3000"; "6570.1"].
Proof.
  refine (proj1 (identifier_normalization Fixture.strtod)
                Fixture.disk ReaderRuns.scoring_file ReaderRuns.raw_table
                ReaderRuns.table _ _);
    vm_compute; reflexivity.
Defined.

Lemma set_number_conversion_witness :
  Forall2 (fun element number =>
             exists field last,
               element = PyStr field
               /\ field = drop_last field ++ String last EmptyString
               /\ python_int (drop_last field) = Some number
               /\ in_int64 number = true)
          (set ReaderRuns.raw_table) [1; 2; 3; 14].
Proof.
  refine (set_number_conversion Fixture.strtod Fixture.disk
            ReaderRuns.scoring_file ReaderRuns.raw_table ReaderRuns.table
            _ _);
    vm_compute; reflexivity.
Defined.



(** * Further properties *)

(** ** Sampling without replacement *)

Lemma map_nth_seq {A} (l : list A) (d : A) :
  map (fun i => nth i l d) (seq 0 (List.length l)) = l.
Proof.
  induction l as [| a l IH]; [ reflexivity | ].
  cbn [List.length seq map nth]. f_equal.
  rewrite <- seq_shift, map_map. exact IH.
Qed.

Lemma In_firstn {A} (n : nat) (l : list A) (x : A) :
  In x (firstn n l) -> In x l.
Proof.
  intros H. rewrite <- (firstn_skipn n l). apply in_or_app. now left.
Qed.

Lemma NoDup_firstn {A} (n : nat) (l : list A) :
  NoDup l -> NoDup (firstn n l).
Proof.
  intros H. rewrite <- (firstn_skipn n l) in H.
  eapply NoDup_app_remove_r; eauto.
Qed.

Lemma NoDup_map_on {A B} (f : A -> B) (l : list A) :
  (forall x y, In x l -> In y l -> f x = f y -> x = y) ->
  NoDup l -> NoDup (map f l).
Proof.
  intros Hinj H. induction H as [| a l Ha _ IH]; simpl; constructor.
  - intros Hin. apply in_map_iff in Hin as (b & Hb & Hbl).
    assert (b = a) by (apply Hinj; simpl; auto). now subst.
  - apply IH. intros x y Hx Hy. apply Hinj; now right.
Qed.

Lemma ix_incl {A} (mask : list bool) (col : list A) (x : A) :
  In x (ix mask col) -> In x col.
Proof.
  intros H. apply ix_In in H as (i & _ & Hi).
  eapply nth_error_In; eauto.
Qed.

Lemma ix_cons {A} (b : bool) (mask : list bool) (c : A) (col : list A) :
  ix (b :: mask) (c :: col)
  = if b then c :: ix mask col else ix mask col.
Proof. unfold ix. simpl. now destruct b. Qed.

(** A mask keeps every element whose entry is true. *)
Lemma ix_complete {A} (mask : list bool) (col : list A) (i : nat) (x : A) :
  nth_error mask i = Some true -> nth_error col i = Some x ->
  In x (ix mask col).
Proof.
  revert col i; induction mask as [| b mask IH]; intros col i Hm Hc.
  - destruct i; discriminate.
  - destruct col as [| c col]; [ destruct i; discriminate | ].
    rewrite ix_cons. destruct i as [| i]; simpl in Hm, Hc.
    + injection Hm as ->. injection Hc as ->. now left.
    + specialize (IH col i Hm Hc). destruct b; [ now right | assumption ].
Qed.

Lemma ix_NoDup {A} (mask : list bool) (col : list A) :
  NoDup col -> NoDup (ix mask col).
Proof.
  revert col; induction mask as [| b mask IH]; intros col H.
  - constructor.
  - destruct col as [| c col]; [ constructor | ].
    rewrite ix_cons. inversion H as [| ? ? Hc Hcol]; subst.
    destruct b; [ | now apply IH ].
    constructor; [ | now apply IH ].
    intros Hin. apply Hc. eapply ix_incl; eauto.
Qed.

Section SampleSize.

Context {rng : RandomSource}.

Lemma take_nth {A} (population : list A) (d : A) (locs : list nat) :
  Forall (fun i => (i < List.length population)%nat) locs ->
  take population locs = Ok (map (fun i => nth i population d) locs).
Proof.
  unfold take. induction 1 as [| i locs Hi _ IH]; [ reflexivity | ].
  cbn [mapM map]. rewrite (nth_error_nth' population d Hi). cbn [bind].
  now rewrite IH.
Qed.

(** A draw of [n] elements, [n] within the population, is the beginning
    of a rearrangement of the population: [n] elements, none of them
    taken from the same place twice. *)
Lemma sample_with_size {A} (population : list A) (n : Z)
    (st : rng_state) :
  population <> [] ->
  0 <= n <= Z.of_nat (List.length population) ->
  exists perm,
    Permutation perm population
    /\ fst (sample_with population (Some n) st)
       = Ok (firstn (Z.to_nat n) perm).
Proof.
  intros Hne Hn. destruct population as [| d population]; [ congruence | ].
  set (pop := d :: population) in *.
  unfold sample_with, choice.
  destruct (n <? 0) eqn:E0; [ apply Z.ltb_lt in E0; lia | ].
  destruct (List.length pop =? 0)%nat eqn:E1;
    [ apply Nat.eqb_eq in E1; discriminate | ].
  destruct (Z.of_nat (List.length pop) <? n) eqn:E2;
    [ apply Z.ltb_lt in E2; lia | ].
  pose proof (permutation_perm st (List.length pop)) as Hp.
  destruct (permutation st (List.length pop)) as [p st']. cbn [fst] in Hp.
  exists (map (fun i => nth i pop d) p). split.
  - eapply Permutation_trans; [ apply Permutation_map; exact Hp | ].
    now rewrite map_nth_seq.
  - cbn [fst]. rewrite firstn_map. apply take_nth.
    apply Forall_forall. intros i Hi.
    apply In_firstn in Hi.
    assert (Hs : In i (seq 0 (List.length pop)))
      by (eapply Permutation_in; eauto).
    apply in_seq in Hs. lia.
Qed.

Variable home : string.

Lemma sample_images_size (population : list string) (n : Z)
    (random_state : option Z) (g : rng_state) :
  valid_random_state random_state ->
  population <> [] ->
  0 <= n <= Z.of_nat (List.length population) ->
  exists perm,
    Permutation perm population
    /\ fst (sample_images home (Ok population) (Some n) random_state g)
       = Ok (map (full_filename home) (firstn (Z.to_nat n) perm)).
Proof.
  intros Hrs Hne Hn. rewrite sample_images_fst.
  assert (Hst : exists st,
             fst (sample population (Some n) random_state g)
             = fst (sample_with population (Some n) st)).
  { unfold sample. destruct random_state as [seed |].
    - simpl in Hrs. rewrite Hrs. now exists (RandomState seed).
    - now exists g. }
  destruct Hst as (st & ->).
  destruct (sample_with_size population n st Hne Hn) as (perm & Hp & ->).
  now exists perm.
Qed.

End SampleSize.

(** ** The text of an identifier *)

(** An integer as Python prints it: an optional minus sign and at least
    one digit. *)
Definition integer_text (s : string) : Prop :=
  exists sign whole,
    s = sign ++ whole
    /\ (sign = EmptyString \/ sign = "-")
    /\ whole <> EmptyString
    /\ all_chars is_digit whole = true.

(** What [read_scoring] can leave in the identifier column. *)
Definition identifier_text (s : string) : Prop :=
  integer_text s \/ one_decimal_digit s.

Lemma str_int_shape (z : Z) : integer_text (str_int z).
Proof.
  destruct z as [| p | p].
  - exists "", "0". repeat split; auto. discriminate.
  - destruct (str_int_digits (Zpos p)) as [Hd Hne]; [ lia | ].
    exists "", (str_int (Zpos p)). repeat split; auto.
  - destruct (str_int_digits (Zpos p)) as [Hd Hne]; [ lia | ].
    exists "-", (str_int (Zpos p)). repeat split; auto.
Qed.

Lemma digit_not_slash (c : ascii) :
  is_digit c = true -> Ascii.eqb c slash = false.
Proof.
  intros H. destruct (Ascii.eqb c slash) eqn:E; [ | reflexivity ].
  apply Ascii.eqb_eq in E. subst c. discriminate.
Qed.

Lemma startswith_app (s r : string) (c : ascii) :
  s <> EmptyString -> startswith (s ++ r) c = startswith s c.
Proof. destruct s; [ congruence | reflexivity ]. Qed.

Lemma digits_relative (whole : string) :
  whole <> EmptyString -> all_chars is_digit whole = true ->
  startswith whole slash = false.
Proof.
  destruct whole as [| c whole]; [ congruence | ].
  intros _ H. simpl in H. apply andb_prop in H as [Hc _].
  simpl. now apply digit_not_slash.
Qed.

(** An identifier is not empty and does not open with a slash. *)
Lemma identifier_text_relative (s : string) :
  identifier_text s -> startswith s slash = false /\ s <> EmptyString.
Proof.
  intros [(sign & whole & -> & Hsign & Hne & Hd)
         | (sign & whole & d & -> & Hsign & Hne & Hd & _)];
    destruct Hsign as [-> | ->]; cbn [append].
  - split; [ now apply digits_relative | assumption ].
  - split; [ reflexivity | discriminate ].
  - split.
    + rewrite startswith_app by assumption. now apply digits_relative.
    + destruct whole; [ congruence | discriminate ].
  - split; [ reflexivity | discriminate ].
Qed.

Lemma clean_identifier_text (element : pyval) (identifier : string) :
  (forall z, element = PyInt z -> in_int64 z = true) ->
  clean_identifier element = Ok identifier ->
  identifier_text identifier.
Proof.
  intros Hrange H.
  destruct (clean_identifier_normalized element identifier Hrange H)
    as (i & f & _ & _ & Hcase).
  destruct (int_eq_float i f).
  - left. subst identifier. apply str_int_shape.
  - right. now destruct Hcase.
Qed.

(** ** [full_filename] on two names *)

Lemma append_cancel_l (x a b : string) : x ++ a = x ++ b -> a = b.
Proof. induction x; simpl; intros H; [ | injection H as H ]; auto. Qed.

Lemma append_cancel_suffix (a b e1 e2 : string) :
  String.length e1 = String.length e2 ->
  a ++ e1 = b ++ e2 -> a = b /\ e1 = e2.
Proof.
  revert b; induction a as [| c a IH]; intros b Hlen H.
  - destruct b as [| c b]; [ now split | ].
    simpl in H. subst e1. simpl in Hlen. rewrite length_app in Hlen. lia.
  - destruct b as [| c' b].
    + simpl in H. subst e2. simpl in Hlen. rewrite length_app in Hlen. lia.
    + simpl in H. injection H as -> H.
      destruct (IH b Hlen H) as [-> ->]. now split.
Qed.

Lemma extension_length (name : string) :
  String.length (extension name) = 4%nat.
Proof. unfold extension. now destruct (in_strings name upper_case_names). Qed.

Lemma full_filename_same_kind (home a b : string) :
  startswith a slash = startswith b slash ->
  full_filename home a = full_filename home b -> a = b.
Proof.
  intros Hkind H. destruct (startswith b slash) eqn:Eb.
  - rewrite (full_filename_absolute home a Hkind),
      (full_filename_absolute home b Eb) in H.
    apply append_cancel_suffix in H as [H _]; [ assumption | ].
    now rewrite !extension_length.
  - rewrite (full_filename_relative home a Hkind),
      (full_filename_relative home b Eb) in H.
    apply append_cancel_l in H. cbn [append] in H. injection H as H.
    apply append_cancel_suffix in H as [H _]; [ assumption | ].
    now rewrite !extension_length.
Qed.

(** ** What a successful draw looks like *)

Section DrawShape.

Context {rng : RandomSource}.

Lemma sample_with_ok {A} (population : list A) (n : option Z)
    (st st' : rng_state) (l : list A) :
  sample_with population n st = (Ok l, st') ->
  exists perm k,
    Permutation perm population /\ l = firstn k perm.
Proof.
  set (k := match n with Some k => k | None => 1 end).
  assert (Hk : sample_with population n st
               = sample_with population (Some k) st)
    by (now destruct n).
  rewrite Hk. intros H.
  assert (Hpre : population <> []
                 /\ 0 <= k <= Z.of_nat (List.length population)).
  { unfold sample_with, choice in H.
    destruct (k <? 0) eqn:E0; [ discriminate | ].
    destruct (List.length population =? 0)%nat eqn:E1; [ discriminate | ].
    destruct (Z.of_nat (List.length population) <? k) eqn:E2;
      [ discriminate | ].
    apply Z.ltb_ge in E0, E2. apply Nat.eqb_neq in E1.
    split; [ | lia ]. intros ->. now apply E1. }
  destruct Hpre as [Hne Hrange].
  destruct (sample_with_size population k st Hne Hrange) as (perm & Hp & E).
  rewrite H in E. injection E as ->. now exists perm, (Z.to_nat k).
Qed.

Variable home : string.

Lemma sample_images_ok rows n random_state g out g' :
  sample_images home rows n random_state g = (Ok out, g') ->
  exists population perm k,
    rows = Ok population
    /\ Permutation perm population
    /\ out = map (full_filename home) (firstn k perm).
Proof.
  unfold sample_images, bindM, lift.
  destruct rows as [population | e]; [ | discriminate ].
  destruct (sample population n random_state g) as [[l | e] g1] eqn:Hs;
    [ | discriminate ].
  intros H. injection H as <- _.
  assert (Hw : exists st st', sample_with population n st = (Ok l, st')).
  { unfold sample in Hs. destruct random_state as [seed |].
    - destruct (seed_ok seed); [ | discriminate ].
      injection Hs as Hs _.
      destruct (sample_with population n (RandomState seed)) as [r st1] eqn:E.
      simpl in Hs; subst r. now exists (RandomState seed), st1.
    - now exists g, g1. }
  destruct Hw as (st & st' & Hw).
  destruct (sample_with_ok population n st st' l Hw) as (perm & k & Hp & ->).
  now exists population, perm, k.
Qed.

End DrawShape.

(** ** The rows behind each sampler *)

Section RowFacts.

Variable to_double : string -> option float.
Variable fs : filesystem.
Variable home : string.

Abbreviation scoring :=
  (read_scoring to_double fs (IAPS_SCORING_FILENAME home)).

(** Every identifier of a table that [read_scoring] returns is an integer
    or a number with one decimal. *)
Lemma read_scoring_identifier_text (filename : string) (df : DataFrame) :
  read_scoring to_double fs filename = Ok df ->
  Forall identifier_text (IAPS df).
Proof.
  intros H. apply read_scoring_ok in H as (lines & rows & _ & _ & Hclean).
  apply clean_ok in Hclean as (_ & Hid & _). apply mapM_ok in Hid.
  simpl in Hid.
  eapply Forall2_right; [ | eapply Forall2_with_left;
    [ | apply (infer_column_int64 to_double (column 1 rows)) | exact Hid ] ].
  - intros element identifier H. exact H.
  - intros element identifier Hrange Hc. simpl.
    now apply clean_identifier_text with (element := element).
Qed.

Lemma mask_at (test : pyval -> result bool) (col : list pyval)
    (mask : list bool) (i : nat) (v : pyval) :
  mapM test col = Ok mask -> nth_error col i = Some v ->
  exists b, nth_error mask i = Some b /\ test v = Ok b.
Proof.
  intros H Hi. apply mapM_ok in H.
  exact (Forall2_nth_left _ _ _ _ _ H Hi).
Qed.

Lemma negative_rows_ix threshold population :
  negative_rows to_double fs home threshold = Ok population ->
  exists df mask,
    scoring = Ok df
    /\ mapM (le_threshold threshold) (valmn df) = Ok mask
    /\ population = ix mask (IAPS df).
Proof.
  unfold negative_rows. intros H. bind_inv H. bind_inv H.
  injection H as <-. now exists a, a0.
Qed.

Lemma positive_rows_ix threshold population :
  positive_rows to_double fs home threshold = Ok population ->
  exists df mask,
    scoring = Ok df
    /\ mapM (ge_threshold threshold) (valmn df) = Ok mask
    /\ population = ix mask (IAPS df).
Proof.
  unfold positive_rows. intros H. bind_inv H. bind_inv H.
  injection H as <-. now exists a, a0.
Qed.

Lemma neutral_rows_ix thresholds population :
  neutral_rows to_double fs home thresholds = Ok population ->
  exists df lower upper,
    scoring = Ok df
    /\ mapM (ge_threshold (fst thresholds)) (valmn df) = Ok lower
    /\ mapM (le_threshold (snd thresholds)) (valmn df) = Ok upper
    /\ population
       = ix (map (fun p => andb (fst p) (snd p)) (combine lower upper))
            (IAPS df).
Proof.
  unfold neutral_rows. intros H. bind_inv H. bind_inv H. bind_inv H.
  injection H as <-. now exists a, a0, a1.
Qed.

Lemma le_threshold_at threshold v f :
  as_double v = Some f ->
  le_threshold threshold v = Ok (float_le f threshold).
Proof. unfold le_threshold. now intros ->. Qed.

Lemma ge_threshold_at threshold v f :
  as_double v = Some f ->
  ge_threshold threshold v = Ok (float_le threshold f).
Proof. unfold ge_threshold. now intros ->. Qed.

Lemma combine_and_at (lower upper : list bool) (i : nat) (a b : bool) :
  nth_error lower i = Some a -> nth_error upper i = Some b ->
  nth_error (map (fun p => andb (fst p) (snd p)) (combine lower upper)) i
  = Some (a && b).
Proof.
  revert upper i; induction lower as [| x lower IH]; intros upper i Ha Hb.
  - destruct i; discriminate.
  - destruct upper as [| y upper]; [ destruct i; discriminate | ].
    destruct i as [| i]; simpl in *.
    + now injection Ha as ->; injection Hb as ->.
    + now apply IH.
Qed.

(** Each sampler draws from every row that passes its test. *)
Lemma negative_rows_complete threshold population df id :
  negative_rows to_double fs home threshold = Ok population ->
  scoring = Ok df ->
  row_with df (fun f => float_le f threshold) id -> In id population.
Proof.
  intros H Hdf (i & v & f & Hid & Hv & Hf & Ht).
  apply negative_rows_ix in H as (df' & mask & Hdf' & Hm & ->).
  assert (df' = df) by congruence; subst df'.
  destruct (mask_at _ _ _ _ _ Hm Hv) as (b & Hb & Hbv).
  rewrite (le_threshold_at threshold v f Hf), Ht in Hbv.
  injection Hbv as <-. eapply ix_complete; eauto.
Qed.

Lemma positive_rows_complete threshold population df id :
  positive_rows to_double fs home threshold = Ok population ->
  scoring = Ok df ->
  row_with df (fun f => float_le threshold f) id -> In id population.
Proof.
  intros H Hdf (i & v & f & Hid & Hv & Hf & Ht).
  apply positive_rows_ix in H as (df' & mask & Hdf' & Hm & ->).
  assert (df' = df) by congruence; subst df'.
  destruct (mask_at _ _ _ _ _ Hm Hv) as (b & Hb & Hbv).
  rewrite (ge_threshold_at threshold v f Hf), Ht in Hbv.
  injection Hbv as <-. eapply ix_complete; eauto.
Qed.

Lemma neutral_rows_complete thresholds population df id :
  neutral_rows to_double fs home thresholds = Ok population ->
  scoring = Ok df ->
  row_with df (fun f => float_le (fst thresholds) f
                        && float_le f (snd thresholds)) id ->
  In id population.
Proof.
  intros H Hdf (i & v & f & Hid & Hv & Hf & Ht).
  apply neutral_rows_ix in H as (df' & lower & upper & Hdf' & Hl & Hu & ->).
  assert (df' = df) by congruence; subst df'.
  destruct (mask_at _ _ _ _ _ Hl Hv) as (a & Ha & Hav).
  destruct (mask_at _ _ _ _ _ Hu Hv) as (b & Hb & Hbv).
  rewrite (ge_threshold_at _ v f Hf) in Hav.
  rewrite (le_threshold_at _ v f Hf) in Hbv.
  injection Hav as <-. injection Hbv as <-.
  eapply ix_complete; [ | exact Hid ].
  rewrite (combine_and_at _ _ _ _ _ Ha Hb). now rewrite Ht.
Qed.

(** The identifiers a sampler draws from are identifiers of the table, in
    table order. *)
Definition drawn_from_table (rows : result (list string)) : Prop :=
  forall population,
    rows = Ok population ->
    exists df mask, scoring = Ok df /\ population = ix mask (IAPS df).

Lemma rows_drawn_from_table threshold thresholds :
  drawn_from_table (negative_rows to_double fs home threshold)
  /\ drawn_from_table (positive_rows to_double fs home threshold)
  /\ drawn_from_table (neutral_rows to_double fs home thresholds).
Proof.
  split; [ | split ]; intros population H.
  - apply negative_rows_ix in H as (df & mask & Hdf & _ & ->).
    now exists df, mask.
  - apply positive_rows_ix in H as (df & mask & Hdf & _ & ->).
    now exists df, mask.
  - apply neutral_rows_ix in H as (df & lower & upper & Hdf & _ & _ & ->).
    now exists df, (map (fun p => andb (fst p) (snd p)) (combine lower upper)).
Qed.

End RowFacts.

(** ** Python's [in] and [join] on text *)

(** [sub in s] *)
Fixpoint contains (sub s : string) : bool :=
  prefix sub s
  || match s with
     | EmptyString => false
     | String _ r => contains sub r
     end.

Lemma prefix_app (s1 s2 r : string) :
  prefix s1 s2 = true -> prefix s1 (s2 ++ r) = true.
Proof.
  revert s2; induction s1 as [| a s1 IH]; intros s2 H.
  - now destruct (s2 ++ r).
  - destruct s2 as [| b s2]; [ discriminate | ].
    simpl in *. destruct (ascii_dec a b); [ now apply IH | discriminate ].
Qed.

Lemma contains_app_r (sub a b : string) :
  contains sub b = true -> contains sub (a ++ b) = true.
Proof.
  intros H. induction a as [| c a IH]; [ assumption | ].
  cbn [append contains]. rewrite IH. apply orb_true_r.
Qed.

Lemma contains_app_l (sub a b : string) :
  contains sub a = true -> contains sub (a ++ b) = true.
Proof.
  induction a as [| c a IH]; intros H.
  - destruct sub; [ destruct b; reflexivity | discriminate ].
  - cbn [append]. cbn [contains] in *.
    apply orb_prop in H as [H | H].
    + change (String c (a ++ b)) with (String c a ++ b).
      now rewrite prefix_app.
    + rewrite (IH H). apply orb_true_r.
Qed.

(** [sep.join(l)] is [String.concat sep l]. *)
Lemma contains_concat (sub sep x : string) (l : list string) :
  In x l -> contains sub x = true ->
  contains sub (String.concat sep l) = true.
Proof.
  intros Hin Hx. induction l as [| y l IH]; [ contradiction | ].
  destruct l as [| z l].
  - destruct Hin as [-> | []]. exact Hx.
  - change (String.concat sep (y :: z :: l))
      with (y ++ sep ++ String.concat sep (z :: l)).
    destruct Hin as [-> | Hin].
    + now apply contains_app_l.
    + apply contains_app_r, contains_app_r. now apply IH.
Qed.

Lemma forallb_false_witness {A} (p : A -> bool) (l : list A) :
  forallb p l = false -> exists x, In x l /\ p x = false.
Proof.
  induction l as [| a l IH]; [ discriminate | ]. simpl.
  destruct (p a) eqn:E; simpl; intros H.
  - destruct (IH H) as (x & Hx & Hp). exists x. split; [ now right | easy ].
  - exists a. split; [ now left | assumption ].
Qed.

(** Among more than four different names one is not in the list of the
    four upper-case names. *)
Lemma lower_case_name_exists (l : list string) :
  NoDup l -> (4 < List.length l)%nat ->
  exists id, In id l /\ extension id = ".jpg".
Proof.
  intros Hnd Hlen.
  destruct (forallb (fun id => in_strings id upper_case_names) l) eqn:E.
  - rewrite forallb_forall in E.
    assert (Hincl : incl l upper_case_names)
      by (intros id Hid; now apply in_strings_In, E).
    apply (NoDup_incl_length Hnd) in Hincl. simpl in Hincl. lia.
  - apply forallb_false_witness in E as (id & Hid & Hout).
    exists id. split; [ assumption | ]. unfold extension. now rewrite Hout.
Qed.

(** ** More on the three samplers *)

Section SamplerExtras.

Context {rng : RandomSource}.
Variable to_double : string -> option float.
Variable fs : filesystem.
Variable home : string.

Abbreviation scoring :=
  (read_scoring to_double fs (IAPS_SCORING_FILENAME home)).
Abbreviation negative := (sample_negative_images to_double fs home).
Abbreviation positive := (sample_positive_images to_double fs home).
Abbreviation neutral := (sample_neutral_images to_double fs home).

(** A run that, asked for [n] filenames with [n] at most the number of
    selected rows, returns the first [n] of a rearrangement of their
    filenames: [n] filenames, no row used twice. *)
Definition draws_n (rows : result (list string))
    (run : option Z -> M (list string)) : Prop :=
  forall population n g,
    rows = Ok population ->
    population <> [] ->
    0 <= n <= Z.of_nat (List.length population) ->
    exists perm out,
      Permutation perm population
      /\ fst (run (Some n) g) = Ok out
      /\ out = map (full_filename home) (firstn (Z.to_nat n) perm)
      /\ List.length out = Z.to_nat n.

Lemma sample_images_draws_n rows random_state :
  valid_random_state random_state ->
  draws_n rows (fun n => sample_images home rows n random_state).
Proof.
  intros Hrs population n g -> Hne Hn.
  destruct (sample_images_size home population n random_state g Hrs Hne Hn)
    as (perm & Hp & Hout).
  exists perm, (map (full_filename home) (firstn (Z.to_nat n) perm)).
  repeat split; try assumption.
  rewrite length_map, length_firstn.
  apply Permutation_length in Hp. lia.
Qed.

(** X1: for every sampler, [n] between 0 and the number of rows that pass
    the valence test (at least one row passing) gives exactly [n]
    filenames, those of the first [n] rows of a rearrangement of the
    passing rows. *)
Theorem sample_size_contract (random_state : option Z)
    (threshold : float) (thresholds : float * float) :
  valid_random_state random_state ->
  draws_n (negative_rows to_double fs home threshold)
          (fun n => negative n random_state threshold)
  /\ draws_n (positive_rows to_double fs home threshold)
             (fun n => positive n random_state threshold)
  /\ draws_n (neutral_rows to_double fs home thresholds)
             (fun n => neutral n random_state thresholds).
Proof.
  intros Hrs.
  split; [ | split ]; now apply sample_images_draws_n.
Qed.

(** A run that, asked for as many filenames as rows are selected, returns
    the filename of every row that passes [test], each selected row
    once. *)
Definition draws_every_row (test : float -> bool)
    (rows : result (list string)) (run : option Z -> M (list string))
  : Prop :=
  forall df population g,
    scoring = Ok df ->
    rows = Ok population ->
    population <> [] ->
    exists out,
      fst (run (Some (Z.of_nat (List.length population))) g) = Ok out
      /\ Permutation out (map (full_filename home) population)
      /\ forall id, row_with df test id -> In (full_filename home id) out.

Lemma sample_images_draws_every_row test rows random_state :
  valid_random_state random_state ->
  (forall population df id,
      rows = Ok population -> scoring = Ok df ->
      row_with df test id -> In id population) ->
  draws_every_row test rows
    (fun n => sample_images home rows n random_state).
Proof.
  intros Hrs Hcomplete df population g Hdf Hrows Hne.
  destruct (sample_images_size home population
              (Z.of_nat (List.length population)) random_state g Hrs Hne)
    as (perm & Hp & Hout); [ lia | ].
  rewrite Nat2Z.id in Hout.
  assert (Hall : firstn (List.length population) perm = perm)
    by (rewrite <- (Permutation_length Hp); apply firstn_all).
  rewrite Hall in Hout.
  subst rows. exists (map (full_filename home) perm).
  split; [ exact Hout | ].
  split; [ now apply Permutation_map | ].
  intros id Hid. apply in_map.
  apply Permutation_in with (l := population);
    [ now apply Permutation_sym | ].
  eapply Hcomplete; eauto.
Qed.

(** X2: called with [n] equal to the number of rows that pass the valence
    test, every sampler returns the filenames of all these rows, in some
    order: no passing row is left out. *)
Theorem sample_whole_population (random_state : option Z)
    (threshold : float) (thresholds : float * float) :
  valid_random_state random_state ->
  draws_every_row (fun valence => float_le valence threshold)
    (negative_rows to_double fs home threshold)
    (fun n => negative n random_state threshold)
  /\ draws_every_row (fun valence => float_le threshold valence)
       (positive_rows to_double fs home threshold)
       (fun n => positive n random_state threshold)
  /\ draws_every_row (fun valence => float_le (fst thresholds) valence
                                     && float_le valence (snd thresholds))
       (neutral_rows to_double fs home thresholds)
       (fun n => neutral n random_state thresholds).
Proof.
  intros Hrs.
  split; [ | split ];
    apply sample_images_draws_every_row; try assumption;
    intros population df id Hrows Hdf Hid.
  - eapply negative_rows_complete; eauto.
  - eapply positive_rows_complete; eauto.
  - eapply neutral_rows_complete; eauto.
Qed.

(** What a successful run returns: identifiers of the table, resolved. *)
Lemma sample_images_from_table rows n random_state g out g' :
  drawn_from_table to_double fs home rows ->
  sample_images home rows n random_state g = (Ok out, g') ->
  exists df ids,
    scoring = Ok df
    /\ incl ids (IAPS df)
    /\ (NoDup (IAPS df) -> NoDup ids)
    /\ out = map (full_filename home) ids.
Proof.
  intros Htable Hrun.
  apply sample_images_ok in Hrun as (population & perm & k & Hrows & Hp & ->).
  destruct (Htable population Hrows) as (df & mask & Hdf & ->).
  exists df, (firstn k perm). split; [ assumption | ].
  split; [ | split; [ | reflexivity ] ].
  - intros id Hid. apply In_firstn in Hid.
    eapply ix_incl, Permutation_in; eauto.
  - intros Hnd. apply NoDup_firstn.
    eapply Permutation_NoDup; [ apply Permutation_sym; exact Hp | ].
    now apply ix_NoDup.
Qed.

(** A run whose every filename is a file of the images directory named
    after an identifier. *)
Definition stays_in_images_dir (run : M (list string)) : Prop :=
  forall g out g',
    run g = (Ok out, g') ->
    Forall (fun filename =>
              exists id,
                identifier_text id
                /\ filename
                   = images_dir home ++ "/" ++ id ++ extension id) out.

Lemma sample_images_stays rows n random_state :
  drawn_from_table to_double fs home rows ->
  stays_in_images_dir (sample_images home rows n random_state).
Proof.
  intros Htable g out g' Hrun.
  destruct (sample_images_from_table _ _ _ _ _ _ Htable Hrun)
    as (df & ids & Hdf & Hincl & _ & ->).
  pose proof (read_scoring_identifier_text to_double fs _ df Hdf) as Htext.
  rewrite Forall_forall in Htext.
  apply Forall_map, Forall_forall. intros id Hid.
  specialize (Htext id (Hincl id Hid)).
  exists id. split; [ assumption | ].
  apply full_filename_relative.
  now apply identifier_text_relative.
Qed.

(** X3: every filename a sampler returns is
    [<images directory>/<identifier><extension>] for an identifier that is
    an optional minus sign and digits, possibly followed by a point and
    one digit: no result lies outside the images directory. *)
Theorem sampled_files_in_images_dir (n random_state : option Z)
    (threshold : float) (thresholds : float * float) :
  stays_in_images_dir (negative n random_state threshold)
  /\ stays_in_images_dir (positive n random_state threshold)
  /\ stays_in_images_dir (neutral n random_state thresholds).
Proof.
  destruct (rows_drawn_from_table to_double fs home threshold thresholds)
    as (Hn & Hp & Hm).
  split; [ | split ]; now apply sample_images_stays.
Qed.

(** A run that, on a table without repeated identifiers, returns no
    filename twice. *)
Definition draws_distinct (run : M (list string)) : Prop :=
  forall df g out g',
    scoring = Ok df ->
    NoDup (IAPS df) ->
    run g = (Ok out, g') ->
    NoDup out.

Lemma sample_images_distinct rows n random_state :
  drawn_from_table to_double fs home rows ->
  draws_distinct (sample_images home rows n random_state).
Proof.
  intros Htable df g out g' Hdf Hnd Hrun.
  destruct (sample_images_from_table _ _ _ _ _ _ Htable Hrun)
    as (df' & ids & Hdf' & Hincl & Hids & ->).
  assert (df' = df) by congruence; subst df'.
  pose proof (read_scoring_identifier_text to_double fs _ df Hdf) as Htext.
  rewrite Forall_forall in Htext.
  apply NoDup_map_on; [ | now apply Hids ].
  intros a b Ha Hb. apply full_filename_same_kind.
  destruct (identifier_text_relative a (Htext a (Hincl a Ha))) as [-> _].
  destruct (identifier_text_relative b (Htext b (Hincl b Hb))) as [-> _].
  reflexivity.
Qed.

(** X4: when no identifier occurs twice in the table, the filenames a
    sampler returns are pairwise different. *)
Theorem sampled_files_distinct (n random_state : option Z)
    (threshold : float) (thresholds : float * float) :
  draws_distinct (negative n random_state threshold)
  /\ draws_distinct (positive n random_state threshold)
  /\ draws_distinct (neutral n random_state thresholds).
Proof.
  destruct (rows_drawn_from_table to_double fs home threshold thresholds)
    as (Hn & Hp & Hm).
  split; [ | split ]; now apply sample_images_distinct.
Qed.

(** A run for which the test of the docstrings,
    ['jpg' in " ".join(filenames)], holds as soon as more than four
    filenames come back from a table without repeated identifiers. *)
Definition shows_jpg (run : M (list string)) : Prop :=
  forall df g out g',
    scoring = Ok df ->
    NoDup (IAPS df) ->
    run g = (Ok out, g') ->
    (4 < List.length out)%nat ->
    contains "jpg" (String.concat " " out) = true.

Lemma sample_images_shows_jpg rows n random_state :
  drawn_from_table to_double fs home rows ->
  shows_jpg (sample_images home rows n random_state).
Proof.
  intros Htable df g out g' Hdf Hnd Hrun Hlen.
  destruct (sample_images_from_table _ _ _ _ _ _ Htable Hrun)
    as (df' & ids & Hdf' & Hincl & Hids & ->).
  assert (df' = df) by congruence; subst df'.
  rewrite length_map in Hlen.
  destruct (lower_case_name_exists ids (Hids Hnd) Hlen) as (id & Hid & Hext).
  apply contains_concat with (x := full_filename home id);
    [ now apply in_map | ].
  rewrite full_filename_join, Hext. now apply contains_app_r.
Qed.

(** X5: the example of the three docstrings holds: a sampler that returns
    more than four filenames (ten in the docstrings) from a table without
    repeated identifiers returns a list whose [" ".join] contains
    ["jpg"]. *)
Theorem docstring_example_jpg (n random_state : option Z)
    (threshold : float) (thresholds : float * float) :
  shows_jpg (negative n random_state threshold)
  /\ shows_jpg (positive n random_state threshold)
  /\ shows_jpg (neutral n random_state thresholds).
Proof.
  destruct (rows_drawn_from_table to_double fs home threshold thresholds)
    as (Hn & Hp & Hm).
  split; [ | split ]; now apply sample_images_shows_jpg.
Qed.

End SamplerExtras.

(** ** More on [full_filename] and the paths *)

Lemma append_associative (a b c : string) : (a ++ b) ++ c = a ++ b ++ c.
Proof. induction a; simpl; congruence. Qed.

Lemma join2_relative (x b : string) (c : ascii) :
  last_char x = Some c -> Ascii.eqb c slash = false ->
  startswith b slash = false ->
  join2 x b = x ++ "/" ++ b.
Proof.
  intros Hlast Hc Hb. unfold join2, endswith_char.
  rewrite Hb, Hlast, Hc.
  destruct x; [ discriminate | reflexivity ].
Qed.

(** X6: two names that both open with a slash, or both do not, get the
    same filename only if they are the same name; and a name that opens
    with a slash gets a filename outside the images directory, the name
    itself with its extension. *)
Theorem full_filename_one_to_one (home : string) :
  (forall a b,
      startswith a slash = startswith b slash ->
      full_filename home a = full_filename home b -> a = b)
  /\ (forall name,
        startswith name slash = true ->
        full_filename home name = name ++ extension name)
  /\ (forall name,
        startswith name slash = false ->
        full_filename home name
        = images_dir home ++ "/" ++ name ++ extension name).
Proof.
  split; [ | split ].
  - intros a b. apply full_filename_same_kind.
  - intros name. apply full_filename_absolute.
  - intros name. apply full_filename_relative.
Qed.

Definition home_prefix (home : string) : string :=
  if String.eqb home EmptyString || endswith_char home slash
  then home else home ++ "/".

(** X7: the three paths of the module: the data directory is
    [data/IAPS 2008 1-20] under the home directory, and the scoring file
    and the images directory lie in it. *)
Theorem data_paths (home : string) :
  IAPS_DIR home = home_prefix home ++ "data/IAPS 2008 1-20"
  /\ IAPS_SCORING_FILENAME home
     = IAPS_DIR home ++ "/IAPS Tech Report/AllSubjects_1-20.txt"
  /\ images_dir home = IAPS_DIR home ++ "/IAPS 1-20 Images".
Proof.
  assert (Hdata : join2 home "data" = home_prefix home ++ "data").
  { unfold join2, home_prefix. simpl.
    destruct (String.eqb home EmptyString || endswith_char home slash);
      [ reflexivity | ].
    now rewrite append_associative. }
  assert (Hlast : last_char (join2 home "data") = Some "a"%char)
    by now rewrite join2_last.
  assert (Hdir : IAPS_DIR home = join2 home "data" ++ "/IAPS 2008 1-20").
  { unfold IAPS_DIR, join. cbn [fold_left].
    now apply join2_relative with (c := "a"%char). }
  assert (Hlast' : last_char (IAPS_DIR home) = Some "0"%char).
  { rewrite Hdir.
    change "/IAPS 2008 1-20" with (String "/" "IAPS 2008 1-20").
    now rewrite last_char_app. }
  split; [ | split ].
  - rewrite Hdir, Hdata. now rewrite append_associative.
  - unfold IAPS_SCORING_FILENAME, join. cbn [fold_left].
    rewrite (join2_relative _ "IAPS Tech Report" "0" Hlast')
      by reflexivity.
    assert (Hl : last_char (IAPS_DIR home ++ "/" ++ "IAPS Tech Report")
                 = Some "t"%char).
    { change ("/" ++ "IAPS Tech Report")
        with (String "/" "IAPS Tech Report").
      now rewrite last_char_app. }
    rewrite (join2_relative _ "AllSubjects_1-20.txt" "t" Hl) by reflexivity.
    now rewrite append_associative.
  - unfold images_dir, join. cbn [fold_left].
    now rewrite (join2_relative _ "IAPS 1-20 Images" "0" Hlast').
Qed.

(** ** More on [read_scoring] *)

Lemma mapM_slice_raises (l : list pyval) :
  Exists (fun v => forall s, v <> PyStr s) l ->
  mapM slice_drop_last l = Raise TypeError.
Proof.
  induction 1 as [v l Hv | v l _ IH]; cbn [mapM].
  - destruct v as [s | z | f]; [ now contradiction (Hv s) | | ];
      reflexivity.
  - destruct v as [s | z | f]; try reflexivity.
    cbn [slice_drop_last bind]. now rewrite IH.
Qed.

Lemma drop_last_nonempty (s : string) :
  drop_last s <> EmptyString -> (2 <= String.length s)%nat.
Proof.
  destruct s as [| a [| b s]]; simpl; try congruence. lia.
Qed.

Lemma astype_int_nonempty (s : string) (z : Z) :
  astype_int s = Ok z -> s <> EmptyString.
Proof. intros H ->. discriminate. Qed.

Section ReaderExtras.

Variable to_double : string -> option float.

Lemma clean_set_fields (rows : list (list string)) (df : DataFrame) :
  clean (frame_of_rows to_double rows) = Ok df ->
  Forall2 (fun field number =>
             is_na field = false
             /\ astype_int (drop_last field) = Ok number)
          (column 10 rows) (set df).
Proof.
  intros Hclean.
  apply clean_ok in Hclean as ((stripped & Hstrip & Hnum) & _ & _).
  apply mapM_ok in Hstrip, Hnum. simpl in Hstrip.
  pose proof (infer_column_converts to_double (column 10 rows)) as Hconv.
  pose proof (Forall2_compose _ _ _ _ _
                (Forall2_compose _ _ _ _ _ Hconv Hstrip) Hnum) as H.
  eapply Forall2_impl; [ | exact H ].
  intros field number (s & (v & Hv & Hs) & Hz). simpl in *.
  destruct v as [t | |]; try discriminate.
  injection Hs as <-.
  apply converts_text_inv in Hv as [-> Hna]. now split.
Qed.

Lemma clean_identifier_fields (rows : list (list string)) (df : DataFrame) :
  clean (frame_of_rows to_double rows) = Ok df ->
  Forall2 (fun field identifier =>
             is_na field = false /\ identifier_text identifier)
          (column 1 rows) (IAPS df).
Proof.
  intros Hclean.
  apply clean_ok in Hclean as (_ & Hid & _). apply mapM_ok in Hid.
  simpl in Hid.
  pose proof (infer_column_converts to_double (column 1 rows)) as Hconv.
  pose proof (Forall2_compose _ _ _ _ _ Hconv Hid) as H.
  eapply Forall2_impl; [ | exact H ].
  intros field identifier (element & Hconvert & Hc). simpl in *.
  split.
  - destruct (is_na field) eqn:E; [ | reflexivity ].
    rewrite (converts_na_inv to_double field element Hconvert E) in Hc.
    discriminate.
  - apply clean_identifier_text with (element := element); [ | exact Hc ].
    intros z ->. eapply converts_int_inv; eauto.
Qed.

(** X8: in every table [read_scoring] returns, each identifier is an
    integer in decimal (an optional minus sign and digits) or such a
    number followed by a point and one digit, so it is never empty and
    holds no slash at its start. *)
Theorem identifiers_are_filename_stems (fs : filesystem)
    (filename : string) (df : DataFrame) :
  read_scoring to_double fs filename = Ok df ->
  Forall (fun identifier =>
            identifier_text identifier
            /\ identifier <> EmptyString
            /\ startswith identifier slash = false)
         (IAPS df).
Proof.
  intros H.
  pose proof (read_scoring_identifier_text to_double fs filename df H)
    as Htext.
  eapply Forall_impl; [ | exact Htext ].
  intros identifier Hid.
  destruct (identifier_text_relative identifier Hid) as [Hrel Hne].
  now repeat split.
Qed.

(** X9: [read_scoring] returns a table only when no row lacks its
    identifier or its set number: in the frame [read_csv] delivered no
    identifier is NaN, and every set number is a text of at least two
    characters, one or more of them before the last. *)
Theorem accepted_file_has_required_fields (fs : filesystem)
    (filename : string) (raw : RawFrame) (df : DataFrame) :
  read_csv to_double fs filename = Ok raw ->
  read_scoring to_double fs filename = Ok df ->
  Forall (fun element => element <> PyFloat nan) (IAPS raw)
  /\ Forall (fun element =>
               exists field,
                 element = PyStr field /\ (2 <= String.length field)%nat)
            (set raw).
Proof.
  intros Hraw Hdf.
  rewrite read_scoring_clean, Hraw in Hdf. cbn [bind] in Hdf.
  apply clean_ok in Hdf as ((stripped & Hstrip & Hnum) & Hid & _).
  apply mapM_ok in Hstrip, Hnum, Hid. split.
  - eapply Forall2_left; [ | exact Hid ].
    intros element identifier Hc ->. discriminate.
  - eapply Forall2_left;
      [ | exact (Forall2_compose _ _ _ _ _ Hstrip Hnum) ].
    intros element number (s & Hs & Hz). simpl in Hs.
    destruct element as [field | |]; try discriminate.
    injection Hs as <-. exists field. split; [ reflexivity | ].
    apply drop_last_nonempty. eapply astype_int_nonempty; eauto.
Qed.

(** X10: every table [read_scoring] returns for a file of plain text
    (printable ASCII and tabs, no double quote, at most eleven fields on a
    data line, no line of spaces only) is rectangular: its eleven columns
    have one entry for each line of the file that comes after the first
    seven and is not empty. *)
Theorem read_scoring_rectangular (fs : filesystem) (filename : string)
    (lines : list string) (df : DataFrame) :
  fs filename = Some lines ->
  plain_file lines = true ->
  read_scoring to_double fs filename = Ok df ->
  nrows df = List.length (data_lines lines)
  /\ List.length (set df) = nrows df
  /\ (forall name,
        In name columns -> name <> "IAPS" -> name <> "set" ->
        List.length (value_column df name) = nrows df)
  /\ (nrows df <= List.length lines - 7)%nat.
Proof.
  intros Hfs _ Hdf.
  apply read_scoring_ok in Hdf as (lines' & rows & Hfs' & Htok & Hclean).
  assert (lines' = lines) by congruence; subst lines'.
  assert (Hrows : List.length rows = List.length (data_lines lines))
    by (unfold tokenize in Htok; now apply mapM_length in Htok).
  assert (Hcol : forall k, List.length (column k rows) = List.length rows)
    by (intros k; unfold column; now rewrite length_map).
  assert (Hn : nrows df = List.length rows).
  { apply clean_identifier_fields, Forall2_length in Hclean.
    unfold nrows. now rewrite <- Hclean, Hcol. }
  split; [ congruence | ]. split; [ | split ].
  - apply clean_set_fields, Forall2_length in Hclean.
    now rewrite <- Hclean, Hcol, Hn.
  - intros name Hin Hi Hs.
    apply In_nth_error in Hin as (k & Hk).
    apply clean_ok in Hclean as (_ & _ & Hcols).
    rewrite Hcols, (frame_of_rows_column to_double rows k name Hk Hi Hs).
    now rewrite infer_column_length, Hcol, Hn.
  - rewrite Hn, Hrows. unfold data_lines.
    etransitivity; [ apply filter_length_le | ].
    now rewrite length_skipn.
Qed.

(** X11: the set column has to be text throughout.  A file of plain text
    (printable ASCII and tabs, no double quote, at most eleven fields on a
    data line, no line of spaces only) with a missing set field and no set
    field that opens with an integer outside the int64 range, or one whose
    set fields are all integers within int64 as they stand (no closing
    character after the digits), makes [read_scoring] raise
    [TypeError]. *)
Theorem set_column_must_be_text (fs : filesystem) (filename : string)
    (lines : list string) (rows : list (list string)) :
  fs filename = Some lines ->
  plain_file lines = true ->
  tokenize lines = Ok rows ->
  (forallb within_int64 (column 10 rows) = true
   /\ exists field, In field (column 10 rows) /\ is_na field = true)
  \/ (rows <> [] /\ forallb int_field (column 10 rows) = true) ->
  read_scoring to_double fs filename = Raise TypeError.
Proof.
  intros Hfs _ Htok Hcase.
  rewrite read_scoring_clean.
  rewrite (read_csv_rows to_double fs filename lines rows Hfs Htok).
  cbn [bind]. unfold clean.
  change (set (frame_of_rows to_double rows))
    with (infer_column to_double (column 10 rows)).
  rewrite mapM_slice_raises; [ reflexivity | ].
  destruct Hcase as [(_ & field & Hin & Hna) | (Hne & Hnum)].
  - apply In_nth_error in Hin as (i & Hi).
    destruct (Forall2_nth_left _ _ _ _ _
                (infer_column_converts to_double (column 10 rows)) Hi)
      as (v & Hv & Hconv).
    apply Exists_exists. exists v.
    split; [ eapply nth_error_In; eauto | ].
    rewrite (converts_na_inv to_double field v Hconv Hna). discriminate.
  - destruct rows as [| r rows]; [ congruence | ].
    unfold infer_column. rewrite Hnum. cbn [column map forallb] in *.
    apply andb_prop in Hnum as [Hint _]. unfold int_field in Hint.
    apply andb_prop in Hint as [_ Hint].
    apply Exists_cons_hd. intros s. unfold as_int.
    destruct (int64_literal (nth 10 r EmptyString)); discriminate.
Qed.

End ReaderExtras.

(** ** The neutral rows between the two other selections *)

Section NeutralRows.

Variable to_double : string -> option float.
Variable fs : filesystem.
Variable home : string.

Abbreviation scoring :=
  (read_scoring to_double fs (IAPS_SCORING_FILENAME home)).

(** X12: the rows [sample_neutral_images] draws from with thresholds
    [(a, b)] are rows that [sample_positive_images] draws from with
    threshold [a] and [sample_negative_images] with threshold [b]; on a
    table without repeated identifiers they are exactly the rows common to
    both. *)
Theorem neutral_rows_between (thresholds : float * float)
    (population : list string) :
  neutral_rows to_double fs home thresholds = Ok population ->
  exists above below,
    positive_rows to_double fs home (fst thresholds) = Ok above
    /\ negative_rows to_double fs home (snd thresholds) = Ok below
    /\ (forall id, In id population -> In id above /\ In id below)
    /\ (forall df,
          scoring = Ok df -> NoDup (IAPS df) ->
          forall id, In id above -> In id below -> In id population).
Proof.
  intros H.
  apply neutral_rows_ix in H as (df & lower & upper & Hdf & Hl & Hu & ->).
  exists (ix lower (IAPS df)), (ix upper (IAPS df)).
  split; [ unfold positive_rows; now rewrite Hdf; cbn [bind]; rewrite Hl | ].
  split; [ unfold negative_rows; now rewrite Hdf; cbn [bind]; rewrite Hu | ].
  split.
  - intros id Hid. apply ix_In in Hid as (i & Hm & Hc).
    apply combine_and_true in Hm as [Hlo Hup].
    split; eapply ix_complete; eauto.
  - intros df' Hdf' Hnd id Ha Hb.
    assert (df' = df) by congruence; subst df'.
    apply ix_In in Ha as (i & Hlo & Hi).
    apply ix_In in Hb as (j & Hup & Hj).
    assert (i = j).
    { apply (proj1 (NoDup_nth_error (IAPS df)) Hnd).
      - apply nth_error_Some. congruence.
      - congruence. }
    subst j. eapply ix_complete; [ | exact Hi ].
    now rewrite (combine_and_at _ _ _ _ _ Hlo Hup).
Qed.

End NeutralRows.

(** ** The further properties on reference files *)

Module GalleryRuns.

Import Fixture.

Definition row (name identifier valence set_number : string) : string :=
  tsv [name; identifier; valence; "1.00"; "5.00"; "1.00"; "5.00"; "1.00";
       "."; "."; set_number].

(** Six pleasant pictures and one of the four upper-case names. *)
Definition gallery_lines : list string :=
  (header ++
   [row "Puppies" "1710" "8.34" "2\";
    row "Bunnies" "1750" "8.28" "2\";
    row "Kitten" "1460" "8.21" "1\";
    row "Seal" "1440" "8.19" "1\";
    row "Baby" "2070" "8.17" "3\";
    row "Babies" "2080" "8.09" "3\";
    row "Aimed Gun" "6570" "2.19" "14\"])%list.

Definition gallery : filesystem :=
  fun name =>
    if String.eqb name (IAPS_SCORING_FILENAME home)
    then Some gallery_lines else None.

Definition gallery_table : DataFrame :=
  Eval vm_compute in
    match read_scoring strtod gallery (IAPS_SCORING_FILENAME home) with
    | Ok df => df
    | Raise _ => mkFrame [] [] [] [] [] [] [] [] [] [] []
    end.

Definition pleasant : list string :=
  ["1710"; "1750"; "1460"; "1440"; "2070"; "2080"].

Definition run_positive n random_state :=
  sample_positive_images (rng := lcg) strtod gallery home n random_state
    default_positive_threshold.

Example gallery_read :
  read_scoring strtod gallery (IAPS_SCORING_FILENAME home) = Ok gallery_table.
Proof. vm_compute. reflexivity. Qed.

Example gallery_positive :
  positive_rows strtod gallery home default_positive_threshold = Ok pleasant.
Proof. vm_compute. reflexivity. Qed.

Lemma gallery_identifiers_differ : NoDup (IAPS gallery_table).
Proof.
  change (IAPS gallery_table)
    with ["1710"; "1750"; "1460"; "1440"; "2070"; "2080"; "6570"].
  repeat (constructor; [ simpl; intuition discriminate | ]). constructor.
Qed.

(** A file whose set fields carry no closing character. *)
Definition bare_sets : filesystem :=
  fun _ => Some (header ++ [row "Puppies" "1710" "8.34" "2";
                            row "Bunnies" "1750" "8.28" "2"])%list.

End GalleryRuns.

Lemma sample_size_contract_witness :
  valid_random_state (Some 11)
  /\ exists perm out,
       Permutation perm GalleryRuns.pleasant
       /\ fst (GalleryRuns.run_positive (Some 3) (Some 11) 5) = Ok out
       /\ out = map (full_filename Fixture.home) (firstn (Z.to_nat 3) perm)
       /\ List.length out = Z.to_nat 3.
Proof.
  split; [ reflexivity | ].
  refine (proj1 (proj2 (sample_size_contract (rng := Fixture.lcg)
                          Fixture.strtod GalleryRuns.gallery Fixture.home
                          (Some 11) default_positive_threshold
                          default_neutral_thresholds _))
                GalleryRuns.pleasant 3 5 _ _ _).
  - reflexivity.
  - vm_compute. reflexivity.
  - discriminate.
  - vm_compute. split; discriminate.
Defined.

Lemma sample_whole_population_witness :
  valid_random_state None
  /\ exists out,
       fst (GalleryRuns.run_positive (Some 6) None 5) = Ok out
       /\ Permutation out
            (map (full_filename Fixture.home) GalleryRuns.pleasant)
       /\ forall id,
            row_with GalleryRuns.gallery_table
              (fun valence => float_le default_positive_threshold valence) id ->
            In (full_filename Fixture.home id) out.
Proof.
  split; [ exact I | ].
  refine (proj1 (proj2 (sample_whole_population (rng := Fixture.lcg)
                          Fixture.strtod GalleryRuns.gallery Fixture.home
                          None default_positive_threshold
                          default_neutral_thresholds _))
                GalleryRuns.gallery_table GalleryRuns.pleasant 5 _ _ _).
  - exact I.
  - vm_compute. reflexivity.
  - vm_compute. reflexivity.
  - discriminate.
Defined.

Lemma sampled_files_distinct_witness :
  NoDup (IAPS GalleryRuns.gallery_table)
  /\ exists out,
       fst (GalleryRuns.run_positive (Some 5) (Some 3) 5) = Ok out
       /\ List.length out = 5%nat
       /\ NoDup out.
Proof.
  split; [ apply GalleryRuns.gallery_identifiers_differ | ].
  destruct (GalleryRuns.run_positive (Some 5) (Some 3) 5) as [r g'] eqn:E.
  assert (Hr : exists out, r = Ok out /\ List.length out = 5%nat).
  { vm_compute in E. injection E as <- _. eexists. split; reflexivity. }
  destruct Hr as (out & -> & Hlen).
  exists out. split; [ reflexivity | ]. split; [ exact Hlen | ].
  refine (proj1 (proj2 (sampled_files_distinct (rng := Fixture.lcg)
                          Fixture.strtod GalleryRuns.gallery Fixture.home
                          (Some 5) (Some 3) default_positive_threshold
                          default_neutral_thresholds))
                GalleryRuns.gallery_table 5 out g' _ _ E).
  - vm_compute. reflexivity.
  - apply GalleryRuns.gallery_identifiers_differ.
Defined.

Lemma docstring_example_jpg_witness :
  exists out,
    fst (GalleryRuns.run_positive (Some 5) (Some 3) 5) = Ok out
    /\ contains "jpg" (String.concat " " out) = true.
Proof.
  destruct (GalleryRuns.run_positive (Some 5) (Some 3) 5) as [r g'] eqn:E.
  assert (Hr : exists out, r = Ok out /\ (4 < List.length out)%nat).
  { vm_compute in E. injection E as <- _. eexists.
    split; [ reflexivity | simpl; lia ]. }
  destruct Hr as (out & -> & Hlen).
  exists out. split; [ reflexivity | ].
  refine (proj1 (proj2 (docstring_example_jpg (rng := Fixture.lcg)
                          Fixture.strtod GalleryRuns.gallery Fixture.home
                          (Some 5) (Some 3) default_positive_threshold
                          default_neutral_thresholds))
                GalleryRuns.gallery_table 5 out g' _ _ E Hlen).
  - vm_compute. reflexivity.
  - apply GalleryRuns.gallery_identifiers_differ.
Defined.

Lemma identifiers_are_filename_stems_witness :
  Forall (fun identifier =>
            identifier_text identifier
            /\ identifier <> EmptyString
            /\ startswith identifier slash = false)
         ["1050"; "1710"; "3000"; "6570.1"].
Proof.
  refine (identifiers_are_filename_stems Fixture.strtod Fixture.disk
            ReaderRuns.scoring_file ReaderRuns.table _).
  vm_compute. reflexivity.
Defined.

Lemma accepted_file_has_required_fields_witness :
  Forall (fun element => element <> PyFloat nan) (IAPS ReaderRuns.raw_table)
  /\ Forall (fun element =>
               exists field,
                 element = PyStr field /\ (2 <= String.length field)%nat)
            (set ReaderRuns.raw_table).
Proof.
  refine (accepted_file_has_required_fields Fixture.strtod Fixture.disk
            ReaderRuns.scoring_file ReaderRuns.raw_table ReaderRuns.table
            _ _);
    vm_compute; reflexivity.
Defined.

Lemma read_scoring_rectangular_witness :
  nrows ReaderRuns.table = 4%nat
  /\ List.length (set ReaderRuns.table) = 4%nat
  /\ List.length (value_column ReaderRuns.table "dom2sd") = 4%nat.
Proof.
  destruct (read_scoring_rectangular Fixture.strtod Fixture.disk
              ReaderRuns.scoring_file Fixture.scoring_lines ReaderRuns.table)
    as (Hn & Hset & Hcols & _).
  - vm_compute. reflexivity.
  - vm_compute. reflexivity.
  - vm_compute. reflexivity.
  - split; [ exact Hn | ]. split; [ exact Hset | ].
    apply (Hcols "dom2sd"); [ | discriminate | discriminate ].
    simpl. tauto.
Defined.

Lemma set_column_must_be_text_witness :
  read_scoring Fixture.strtod GalleryRuns.bare_sets ReaderRuns.scoring_file
  = Raise TypeError.
Proof.
  refine (set_column_must_be_text Fixture.strtod GalleryRuns.bare_sets
            ReaderRuns.scoring_file _ _ _ _ _ (or_intror (conj _ _)));
    [ reflexivity | vm_compute; reflexivity | vm_compute; reflexivity
    | discriminate | vm_compute; reflexivity ].
Defined.

Lemma neutral_rows_between_witness :
  exists above below,
    positive_rows Fixture.strtod Fixture.disk Fixture.home (float_of_Z 2)
    = Ok above
    /\ negative_rows Fixture.strtod Fixture.disk Fixture.home (float_of_Z 4)
       = Ok below
    /\ (forall id, In id ["1050"; "6570.1"] -> In id above /\ In id below)
    /\ (forall df,
          read_scoring Fixture.strtod Fixture.disk
            (IAPS_SCORING_FILENAME Fixture.home) = Ok df ->
          NoDup (IAPS df) ->
          forall id, In id above -> In id below -> In id ["1050"; "6570.1"]).
Proof.
  refine (neutral_rows_between Fixture.strtod Fixture.disk Fixture.home
            (float_of_Z 2, float_of_Z 4) ["1050"; "6570.1"] _).
  vm_compute. reflexivity.
Defined.

(** ** Moving the thresholds *)

(** The order [float_le] tests, read off the representation: NaN is left
    out, then the sign class, the exponent and the mantissa decide. *)
Definition float_key (x : float) : option (Z * Z * Z) :=
  match x with
  | S754_nan => None
  | S754_zero _ => Some (0, 0, 0)
  | S754_infinity s => Some (if s then -2 else 2, 0, 0)
  | S754_finite s m e =>
      Some (if s then (-1, - e, Zneg m) else (1, e, Zpos m))
  end.

Definition key_le (a b : Z * Z * Z) : Prop :=
  let '(a1, a2, a3) := a in
  let '(b1, b2, b3) := b in
  a1 < b1 \/ (a1 = b1 /\ (a2 < b2 \/ (a2 = b2 /\ a3 <= b3))).

Lemma float_le_key (x y : float) :
  float_le x y = true <->
  exists a b, float_key x = Some a /\ float_key y = Some b /\ key_le a b.
Proof.
  unfold float_le, SFleb, SFcompare.
  destruct x as [sx | sx | | sx mx ex], y as [sy | sy | | sy my ey];
    try destruct sx; try destruct sy; simpl;
    try (split; [ intros _; eexists; eexists; repeat split; simpl; lia
                | reflexivity ]);
    try (split; [ discriminate
                | intros (a & b & Ha & Hb & H); try discriminate;
                  injection Ha as <-; injection Hb as <-; simpl in H; lia ]).
  all: change (Pos.compare_cont Eq mx my) with (mx ?= my)%positive.
  all: destruct (Z.compare_spec ex ey); destruct (Pos.compare_spec mx my);
    simpl;
    (split; [ try discriminate; intros _; eexists; eexists; repeat split;
              simpl; lia
            | try reflexivity; intros (a & b & Ha & Hb & Hl);
              injection Ha as <-; injection Hb as <-; simpl in Hl; lia ]).
Qed.

Lemma float_le_trans (x y z : float) :
  float_le x y = true -> float_le y z = true -> float_le x z = true.
Proof.
  rewrite !float_le_key.
  intros (a & b & Ha & Hb & Hab) (b' & c & Hb' & Hc & Hbc).
  assert (b' = b) by congruence; subst b'.
  exists a, c. repeat split; try assumption.
  destruct a as [[a1 a2] a3], b as [[b1 b2] b3], c as [[c1 c2] c3].
  simpl in *. lia.
Qed.

Lemma ix_monotone {A} (mask mask' : list bool) (col : list A) :
  (forall i, nth_error mask i = Some true -> nth_error mask' i = Some true) ->
  incl (ix mask col) (ix mask' col).
Proof.
  intros H x Hx. apply ix_In in Hx as (i & Hm & Hc).
  eapply ix_complete; eauto.
Qed.

(** A test that lets through whatever another test lets through gives a
    mask that is true wherever the other one is. *)
Lemma mask_monotone (pass pass' : float -> bool) (col : list pyval)
    (mask : list bool) :
  (forall f, pass f = true -> pass' f = true) ->
  mapM (fun v => match as_double v with
                 | Some f => Ok (pass f)
                 | None => Raise TypeError
                 end) col = Ok mask ->
  exists mask',
    mapM (fun v => match as_double v with
                   | Some f => Ok (pass' f)
                   | None => Raise TypeError
                   end) col = Ok mask'
    /\ forall i, nth_error mask i = Some true ->
                 nth_error mask' i = Some true.
Proof.
  intros Hpass. revert mask; induction col as [| v col IH]; intros mask H.
  - injection H as <-. exists []. split; [ reflexivity | ].
    intros i Hi. destruct i; discriminate.
  - cbn [mapM] in *. destruct (as_double v) as [f |]; [ | discriminate ].
    cbn [bind] in *. bind_inv H. injection H as <-.
    destruct (IH a Ha) as (mask' & -> & Hm). cbn [bind].
    exists (pass' f :: mask'). split; [ reflexivity | ].
    intros i Hi. destruct i as [| i]; simpl in *.
    + injection Hi as Hi. now rewrite (Hpass f Hi).
    + now apply Hm.
Qed.

Section Thresholds.

Variable to_double : string -> option float.
Variable fs : filesystem.
Variable home : string.

(** A selection that succeeds and keeps every row of another one. *)
Definition widens (narrow wide : result (list string)) : Prop :=
  forall population,
    narrow = Ok population ->
    exists population', wide = Ok population' /\ incl population population'.

(** X13: moving a threshold outwards never loses a row: the rows
    [sample_negative_images] draws from only grow when its threshold
    rises, those of [sample_positive_images] when its threshold falls, and
    those of [sample_neutral_images] when its lower threshold falls and
    its upper threshold rises. *)
Theorem wider_thresholds_keep_rows (low low' high high' : float) :
  float_le low' low = true ->
  float_le high high' = true ->
  widens (negative_rows to_double fs home high)
         (negative_rows to_double fs home high')
  /\ widens (positive_rows to_double fs home low)
            (positive_rows to_double fs home low')
  /\ widens (neutral_rows to_double fs home (low, high))
            (neutral_rows to_double fs home (low', high')).
Proof.
  intros Hlow Hhigh.
  assert (Hle : forall f, float_le f high = true -> float_le f high' = true)
    by (intros f H; eapply float_le_trans; eauto).
  assert (Hge : forall f, float_le low f = true -> float_le low' f = true)
    by (intros f H; eapply float_le_trans; eauto).
  split; [ | split ]; intros population H.
  - apply negative_rows_ix in H as (df & mask & Hdf & Hm & ->).
    destruct (mask_monotone _ _ _ _ Hle Hm) as (mask' & Hm' & Hi).
    exists (ix mask' (IAPS df)). split; [ | now apply ix_monotone ].
    unfold negative_rows. rewrite Hdf. cbn [bind].
    unfold le_threshold. now rewrite Hm'.
  - apply positive_rows_ix in H as (df & mask & Hdf & Hm & ->).
    destruct (mask_monotone _ _ _ _ Hge Hm) as (mask' & Hm' & Hi).
    exists (ix mask' (IAPS df)). split; [ | now apply ix_monotone ].
    unfold positive_rows. rewrite Hdf. cbn [bind].
    unfold ge_threshold. now rewrite Hm'.
  - apply neutral_rows_ix in H as (df & lower & upper & Hdf & Hl & Hu & ->).
    cbn [fst snd] in Hl, Hu.
    destruct (mask_monotone _ _ _ _ Hge Hl) as (lower' & Hl' & Hli).
    destruct (mask_monotone _ _ _ _ Hle Hu) as (upper' & Hu' & Hui).
    exists (ix (map (fun p => andb (fst p) (snd p)) (combine lower' upper'))
               (IAPS df)).
    split.
    + unfold neutral_rows. rewrite Hdf. cbn [bind fst snd].
      unfold ge_threshold, le_threshold. rewrite Hl'. cbn [bind].
      now rewrite Hu'.
    + apply ix_monotone. intros i Hi.
      apply combine_and_true in Hi as [Ha Hb].
      now rewrite (combine_and_at _ _ _ _ _ (Hli i Ha) (Hui i Hb)).
Qed.

End Thresholds.

Lemma wider_thresholds_keep_rows_witness :
  float_le (float_of_Z 2) (float_of_Z 3) = true
  /\ float_le (float_of_Z 3) (float_of_Z 4) = true
  /\ exists population',
       negative_rows Fixture.strtod Fixture.disk Fixture.home (float_of_Z 4)
       = Ok population'
       /\ incl ["3000"; "6570.1"] population'.
Proof.
  split; [ reflexivity | ]. split; [ reflexivity | ].
  refine (proj1 (wider_thresholds_keep_rows Fixture.strtod Fixture.disk
                   Fixture.home (float_of_Z 3) (float_of_Z 2)
                   (float_of_Z 3) (float_of_Z 4) _ _)
                ["3000"; "6570.1"] _);
    vm_compute; reflexivity.
Defined.
